(** * The Rose Glass perception engine of CERATA

    A shallow embedding of
    - [src/services/rose-glass/biological-optimization.ts] ([optimizeQ],
      [getOptimizationCurve]),
    - [src/services/rose-glass/types.ts] (the records),
    - [src/services/rose-glass/calibrations/code-analysis.ts]
      ([codeAnalysisLens]),
    - [src/services/rose-glass/rose-glass.service.ts] ([RoseGlassService]),
    - [src/mcp-server/tools/definitions/cerata-hunt-repo.tool.ts]
      ([parseRepoIdentifier], [extractDimensions], [detectTests] and the
      call of [perceive] in [execute]),
    followed by the properties the specification states about them and
    by further properties read off the code.

    Numbers.  A JavaScript [number] is modelled by an exact rational of
    [Q]: the decimal literals of the source ([0.7], [0.999], ...) are the
    rationals they denote, [+ - * /] are exact, and comparisons are the
    boolean comparisons of [Q].  The general statements are proved over
    this model, for real-valued inputs.  The program computes in IEEE
    binary64, where a result is rounded, a strict bound can become an
    equality, a positive quotient can underflow to [0], and products of
    large finite numbers overflow to infinities whose sum is NaN.  The
    numbered statements are therefore the ones that rounding does not
    break: bounds are stated non-strictly where rounding can reach them,
    and statements that overflow would break carry the hypothesis that
    the dimensions lie in [0,1].  Module [Binary64] holds the numeric
    code a second time, over the kernel's binary64 floats; it is
    evaluated where rounding or overflow decides, and the worked examples
    at the end record the inputs that shaped the statements.

    The only partial operations of the code are divisions.  Where a
    divisor is zero the model's [Qdiv] yields [0] whereas IEEE yields an
    infinity or NaN; every statement about the value of a quotient is
    about inputs for which the divisor is positive ([optimizeQ] with
    positive constants, [extractDimensions] with counts and dates for
    which [stargazers_count + 1] and [daysSinceUpdate + 1] are
    positive).

    Exceptions.  A call either returns or throws; [completion] records
    which, and [getLens] is the only function of the service with a
    [throw].  The tool logic throws [McpError]s, which carry a code;
    [attempt] records those. *)

From Stdlib Require Import QArith Qminmax Lqa Ascii String List.
From Stdlib Require PrimFloat.
From stdpp Require Import gmap strings.
Import ListNotations.

(** ** JavaScript numbers *)

Module JsNumber.

(** [x <= y], [x >= y] and [x < y] as the conditions of an [if]. *)
Definition le (x y : Q) : bool := Qle_bool x y.
Definition ge (x y : Q) : bool := Qle_bool y x.
Definition lt (x y : Q) : bool := negb (Qle_bool y x).

(** [Math.max(a, b)] and [Math.min(a, b)]. *)
Definition Math_max (a b : Q) : Q := Qmax a b.
Definition Math_min (a b : Q) : Q := Qmin a b.

End JsNumber.

Import JsNumber.

Declare Scope js_scope.
Delimit Scope js_scope with js.
Infix "<=?" := JsNumber.le (at level 70, no associativity) : js_scope.
Infix ">=?" := JsNumber.ge (at level 70, no associativity) : js_scope.
Infix "<?" := JsNumber.lt (at level 70, no associativity) : js_scope.

Open Scope Q_scope.
Open Scope js_scope.

(** ** Completions: a call returns a value or throws an [Error] *)

Inductive completion (A : Type) : Type :=
| Normal (value : A)
| Throw (message : string).

Arguments Normal {A} value.
Arguments Throw {A} message.

(** Sequencing: a [throw] in the first computation ends the whole one. *)
#[global] Instance completion_ret : MRet completion := fun A a => Normal a.
#[global] Instance completion_bind : MBind completion :=
  fun A B k c =>
    match c with
    | Normal a => k a
    | Throw m => Throw m
    end.

(** ** biological-optimization.ts *)

Module BiologicalOptimization.

(** [optimizeQ(q, Km, Ki)]: the reassignment [q = 0.999] is the inner
    [let].  The body has no [throw]. *)
Definition optimizeQ (q Km Ki : Q) : Q :=
  if q <=? 0 then 0
  else
    let q := if q >=? 1 then 0.999 else q in
    let denominator := Km + q + (q * q) / Ki in
    q / denominator.

(** The default values of the parameters [Km] and [Ki]. *)
Definition default_Km : Q := 0.2.
Definition default_Ki : Q := 0.8.

(** A call with omitted (undefined) constants takes the defaults. *)
Definition optimizeQ_call (q : Q) (Km Ki : option Q) : completion Q :=
  Normal (optimizeQ q (default default_Km Km) (default default_Ki Ki)).

End BiologicalOptimization.

Import BiologicalOptimization.

(** ** types.ts *)

Module Types.

Record RawDimensions : Type := {
  psi : Q;   (* internal consistency *)
  rho : Q;   (* accumulated wisdom *)
  q : Q;     (* activation *)
  f : Q      (* belonging *)
}.

(** [ExtendedDimensions extends RawDimensions]: the four raw fields are
    reached through the coercion. *)
Record ExtendedDimensions : Type := {
  raw :> RawDimensions;
  tau : Q;     (* temporal depth *)
  lambda : Q   (* lens interference *)
}.

Record BiologicalParams : Type := {
  Km : Q;
  Ki : Q
}.

Module Weights.
Record t : Type := { psi : Q; rho : Q; q : Q; f : Q }.
End Weights.

Record LensCalibration : Type := {
  name : string;
  description : string;
  weights : Weights.t;
  biologicalParams : BiologicalParams;
  expectedPatterns : option (list string)
}.

Inductive Confidence : Type := low | medium | high.

Record PerceptionReport : Type := {
  lens : string;
  dimensions : ExtendedDimensions;
  coherence : Q;
  qOptimized : Q;
  confidence : Confidence;
  patterns : list string;
  warnings : list string
}.

End Types.

Import Types.

(** ** calibrations/code-analysis.ts *)

Definition codeAnalysisLens : LensCalibration := {|
  name := "code-analysis";
  description := "Perceives code repository coherence patterns";
  weights := {| Weights.psi := 0.3; Weights.rho := 0.3;
                Weights.q := 0.15; Weights.f := 0.25 |};
  biologicalParams := {| Km := 0.2; Ki := 0.8 |};
  expectedPatterns := Some [
    "error-handling"; "type-safety"; "test-coverage"; "documentation";
    "consistent-style"; "modular-structure"; "dependency-hygiene" ]
|}.

(** ** rose-glass.service.ts *)

Module CoherenceResult.
(** The object [{ coherence, qOptimized }] that [calculateCoherence]
    returns. *)
Record t : Type := { coherence : Q; qOptimized : Q }.
End CoherenceResult.

Module RoseGlassService.

(** The two private fields of the class. *)
Record t : Type := {
  lenses : gmap string LensCalibration;
  defaultLens : string
}.

(** [registerLens(calibration)]: [this.lenses.set(calibration.name,
    calibration)]. *)
Definition registerLens (this : t) (calibration : LensCalibration) : t :=
  {| lenses := <[name calibration := calibration]> (lenses this);
     defaultLens := defaultLens this |}.

(** The field initialisers followed by the constructor body. *)
Definition new : t :=
  registerLens {| lenses := ∅; defaultLens := "code-analysis" |}
               codeAnalysisLens.

(** [getLens(name?)]: [name ?? this.defaultLens], then the lookup; a
    stored calibration is an object and so never falsy. *)
Definition getLens (this : t) (name : option string)
  : completion LensCalibration :=
  let lensName := default (defaultLens this) name in
  match lenses this !! lensName with
  | Some lens => Normal lens
  | None => Throw ("Unknown lens: " +:+ lensName)
  end.

(** [calculateCoherence(dimensions, lens)]. *)
Definition calculateCoherence (dimensions : ExtendedDimensions)
    (lens : LensCalibration) : CoherenceResult.t :=
  let '(psi, rho, q, f, tau, lambda) :=
    (psi dimensions, rho dimensions, q dimensions, f dimensions,
     tau dimensions, lambda dimensions) in
  let '(Km, Ki) :=
    (Km (biologicalParams lens), Ki (biologicalParams lens)) in
  let qOptimized := optimizeQ q Km Ki in
  let coupling := tau * lambda in
  let rawCoherence := psi + rho * psi + qOptimized + f * psi + coupling in
  let coherence := Math_min 4.0 (Math_max 0.0 rawCoherence) in
  {| CoherenceResult.coherence := coherence;
     CoherenceResult.qOptimized := qOptimized |}.

(** [estimateTemporalDepth(d)]. *)
Definition estimateTemporalDepth (d : RawDimensions) : Q :=
  let rawTau := rho d * 0.6 + psi d * 0.4 in
  Math_min 1.0 (Math_max 0.0 rawTau).

(** [estimateLensInterference(d)]. *)
Definition estimateLensInterference (d : RawDimensions) : Q :=
  let inconsistency := 1.0 - psi d in
  let rawLambda := inconsistency * q d * 0.5 in
  Math_min 1.0 (Math_max 0.0 rawLambda).

(** [detected.push(tag)] on the local array. *)
Definition push (detected : list string) (tag : string) : list string :=
  detected ++ [tag].

(** [detectPatterns(d, lens)]; the parameter [lens] is not read. *)
Definition detectPatterns (d : ExtendedDimensions) (lens : LensCalibration)
  : list string :=
  let detected := [] in
  let detected := if psi d >=? 0.7 then push detected "high-consistency" else detected in
  let detected := if psi d <=? 0.3 then push detected "low-consistency" else detected in
  let detected := if rho d >=? 0.7 then push detected "battle-tested" else detected in
  let detected := if rho d <=? 0.3 then push detected "immature" else detected in
  let detected := if q d >=? 0.7 then push detected "high-activation" else detected in
  let detected := if q d <=? 0.2 then push detected "dormant" else detected in
  let detected := if f d >=? 0.7 then push detected "well-integrated" else detected in
  let detected := if f d <=? 0.3 then push detected "isolated" else detected in
  let detected := if tau d >=? 0.7 then push detected "deep-history" else detected in
  let detected := if tau d <=? 0.3 then push detected "ephemeral" else detected in
  let detected := if lambda d >=? 0.5 then push detected "observer-interference" else detected in
  let detected := if (psi d >=? 0.7) && (rho d >=? 0.7) then push detected "stable-mature" else detected in
  let detected := if (psi d <=? 0.3) && (q d >=? 0.7) then push detected "chaotic-active" else detected in
  let detected := if (f d >=? 0.7) && (rho d >=? 0.7) then push detected "ecosystem-anchor" else detected in
  detected.

(** [generateWarnings(d, coherence)]. *)
Definition generateWarnings (d : ExtendedDimensions) (coherence : Q)
  : list string :=
  let warnings := [] in
  let warnings :=
    if coherence <? 1.0
    then push warnings "Low overall coherence - substrate may be unstable"
    else warnings in
  let warnings :=
    if (psi d <=? 0.3) && (q d >=? 0.7)
    then push warnings "High activation with low consistency - potential instability"
    else warnings in
  let warnings :=
    if (f d <=? 0.3) && (rho d >=? 0.5)
    then push warnings "Isolated despite maturity - integration issues"
    else warnings in
  let warnings :=
    if lambda d >=? 0.6
    then push warnings "High observer interference - perception may be distorted"
    else warnings in
  let warnings :=
    if q d >=? 0.9
    then push warnings "Extreme activation detected - biological optimization applied"
    else warnings in
  let warnings :=
    if (tau d <=? 0.2) && (rho d >=? 0.5)
    then push warnings "Shallow temporal depth despite accumulated wisdom - anomaly"
    else warnings in
  warnings.

(** [assessConfidence(d)]. *)
Definition assessConfidence (d : ExtendedDimensions) : Confidence :=
  let signalStrength := (psi d + rho d + q d + f d) / 4 in
  let interferenceAdjusted := signalStrength * (1.0 - lambda d * 0.5) in
  if interferenceAdjusted >=? 0.6 then high
  else if interferenceAdjusted >=? 0.35 then medium
  else low.

(** [perceive(dimensions, lensName?)]; the spread [...dimensions] is the
    [raw] component of the extended record. *)
Definition perceive (this : t) (dimensions : RawDimensions)
    (lensName : option string) : completion PerceptionReport :=
  lens ← getLens this lensName;
  let extended : ExtendedDimensions :=
    {| raw := dimensions;
       tau := estimateTemporalDepth dimensions;
       lambda := estimateLensInterference dimensions |} in
  let '(coherence, qOptimized) :=
    (CoherenceResult.coherence (calculateCoherence extended lens),
     CoherenceResult.qOptimized (calculateCoherence extended lens)) in
  let patterns := detectPatterns extended lens in
  let warnings := generateWarnings extended coherence in
  let confidence := assessConfidence extended in
  mret {| lens := name lens;
          dimensions := extended;
          coherence := coherence;
          qOptimized := qOptimized;
          confidence := confidence;
          patterns := patterns;
          warnings := warnings |}.

(** The states of a service object: the constructed one, and any state
    after further calls of the public [registerLens]. *)
Inductive reachable : t -> Prop :=
| reachable_new : reachable new
| reachable_register this calibration :
    reachable this -> reachable (registerLens this calibration).

End RoseGlassService.

Import RoseGlassService.

(** The local constant [rawCoherence] of [calculateCoherence], before the
    final [Math.min]/[Math.max]. *)
Definition rawCoherence (dimensions : ExtendedDimensions)
    (lens : LensCalibration) : Q :=
  psi dimensions + rho dimensions * psi dimensions
  + optimizeQ (q dimensions) (Km (biologicalParams lens))
              (Ki (biologicalParams lens))
  + f dimensions * psi dimensions
  + tau dimensions * lambda dimensions.

(** The report [perceive] assembles once the lens is resolved. *)
Definition reportFor (dimensions : RawDimensions) (lens : LensCalibration)
  : PerceptionReport :=
  let extended :=
    {| raw := dimensions;
       tau := estimateTemporalDepth dimensions;
       lambda := estimateLensInterference dimensions |} in
  {| lens := name lens;
     dimensions := extended;
     coherence := CoherenceResult.coherence (calculateCoherence extended lens);
     qOptimized := CoherenceResult.qOptimized (calculateCoherence extended lens);
     confidence := assessConfidence extended;
     patterns := detectPatterns extended lens;
     warnings := generateWarnings extended
                   (CoherenceResult.coherence (calculateCoherence extended lens)) |}.

(** Successive calls of [registerLens], first to last. *)
Definition registerAll (this : RoseGlassService.t)
    (calibrations : list LensCalibration) : RoseGlassService.t :=
  fold_left registerLens calibrations this.

(** A number within the unit interval. *)
Definition in_unit (x : Q) : Prop := 0 <= x <= 1.

(** ** Sample data *)

(** A calibration with a negative saturation constant, for the examples. *)
Definition negativeKmLens : LensCalibration := {|
  name := "negative-km";
  description := "saturation constant below zero";
  weights := {| Weights.psi := 0.25; Weights.rho := 0.25;
                Weights.q := 0.25; Weights.f := 0.25 |};
  biologicalParams := {| Km := -0.2; Ki := 0.8 |};
  expectedPatterns := None
|}.

Definition halfDimensions : RawDimensions :=
  {| psi := 0.5; rho := 0.5; q := 0.5; f := 0.5 |}.

(** Raw dimensions outside the unit interval. *)
Definition outOfRangeDimensions : RawDimensions :=
  {| psi := 5; rho := -1; q := 0.5; f := 0.5 |}.

(** [codeAnalysisLens] with other weights and the same two constants. *)
Definition reweightedLens : LensCalibration := {|
  name := "reweighted";
  description := "other weights, same kinetic constants";
  weights := {| Weights.psi := 0.7; Weights.rho := 0.1;
                Weights.q := 0.1; Weights.f := 0.1 |};
  biologicalParams := {| Km := 0.2; Ki := 0.8 |};
  expectedPatterns := None
|}.


(** All six extended dimensions at one value. *)
Definition uniform (x : Q) : ExtendedDimensions :=
  {| raw := {| psi := x; rho := x; q := x; f := x |}; tau := x; lambda := x |}.

(** ** The formulas of the specification

    Written from the specification's words, to be compared with the code:
    [clamp], [clamp01], the dimension estimates (section 4.2), the
    coherence formula (section 4.4) and the ordered table of pattern
    rules (sections 4.5 and 9). *)

Module Spec.

Definition clamp (x lo hi : Q) : Q :=
  if x <? lo then lo else if hi <? x then hi else x.

Definition clamp01 (x : Q) : Q := clamp x 0 1.

(** [temporalDepth = clamp01(0.6·wisdom + 0.4·consistency)]. *)
Definition temporalDepth (consistency wisdom : Q) : Q :=
  clamp01 (0.6 * wisdom + 0.4 * consistency).

(** [interference = clamp01(0.5·(1 − consistency)·activation)]. *)
Definition interference (consistency activation : Q) : Q :=
  clamp01 (0.5 * (1 - consistency) * activation).

(** [raw = consistency + wisdom * consistency + optimizedActivation
          + belonging * consistency + temporalDepth * interference];
    [coherence = clamp(raw, 0, 4)]. *)
Definition coherence
    (consistency wisdom optimizedActivation belonging
     temporalDepth interference : Q) : Q :=
  clamp (consistency + wisdom * consistency + optimizedActivation
         + belonging * consistency + temporalDepth * interference) 0 4.

(** The pattern rules in their order of evaluation: each condition
    together with its tag. *)
Definition patternRules (d : ExtendedDimensions) : list (bool * string) :=
  [ (psi d >=? 0.7, "high-consistency");
    (psi d <=? 0.3, "low-consistency");
    (rho d >=? 0.7, "battle-tested");
    (rho d <=? 0.3, "immature");
    (q d >=? 0.7, "high-activation");
    (q d <=? 0.2, "dormant");
    (f d >=? 0.7, "well-integrated");
    (f d <=? 0.3, "isolated");
    (tau d >=? 0.7, "deep-history");
    (tau d <=? 0.3, "ephemeral");
    (lambda d >=? 0.5, "observer-interference");
    ((psi d >=? 0.7) && (rho d >=? 0.7), "stable-mature");
    ((psi d <=? 0.3) && (q d >=? 0.7), "chaotic-active");
    ((f d >=? 0.7) && (rho d >=? 0.7), "ecosystem-anchor") ].

(** The tags of the rules that fire, in table order. *)
Definition firedTags (rules : list (bool * string)) : list string :=
  List.map snd (List.filter (fun rule : bool * string => fst rule) rules).

(** The high tag and the low tag of each dimension that has both. *)
Definition opposedTags : list (string * string) :=
  [ ("high-consistency", "low-consistency");
    ("battle-tested", "immature");
    ("high-activation", "dormant");
    ("well-integrated", "isolated");
    ("deep-history", "ephemeral") ].

End Spec.

(** ** biological-optimization.ts: the debugging curve *)

Module CurvePoint.
(** One [{ q, qOpt }] pair of the curve. *)
Record t : Type := { q : Q; qOpt : Q }.
End CurvePoint.

(** The index [i] of [Array.from] as a number. *)
Definition indexNumber (i : nat) : Q := inject_Z (Z.of_nat i).

(** [getOptimizationCurve(Km, Ki, steps)], for [steps] a natural number:
    [Array.from({ length: steps + 1 }, (_, i) => ...)] visits the indices
    [0 .. steps] in order. *)
Definition getOptimizationCurve (Km Ki : Q) (steps : nat) : list CurvePoint.t :=
  List.map
    (fun i : nat =>
       let q := indexNumber i / indexNumber steps in
       {| CurvePoint.q := q; CurvePoint.qOpt := optimizeQ q Km Ki |})
    (seq 0 (steps + 1)).

(** ** cerata-hunt-repo.tool.ts *)

(** The members of [JsonRpcErrorCode] that the sources name. *)
Inductive JsonRpcErrorCode : Type :=
| InvalidParams
| RateLimited
| InternalError
| Timeout.

(** A call of the tool logic returns or throws an [McpError] with a code
    and a message. *)
Inductive attempt (A : Type) : Type :=
| Returned (value : A)
| Raised (code : JsonRpcErrorCode) (message : string).

Arguments Returned {A} value.
Arguments Raised {A} code message.

Module GitHubRepo.
(** The interface [GitHubRepo]; [owner] is the [login] of the owner
    object, the counts are numbers, [null] and an absent [topics] are
    [None]. *)
Record t : Type := {
  id : Q;
  name : string;
  full_name : string;
  owner : string;
  html_url : string;
  description : option string;
  stargazers_count : Q;
  forks_count : Q;
  language : option string;
  created_at : string;
  updated_at : string;
  open_issues_count : Q;
  has_wiki : bool;
  topics : option (list string)
}.
End GitHubRepo.

Module RepoIdentifier.
(** The object [{ owner, name }]. *)
Record t : Type := { owner : string; name : string }.
End RepoIdentifier.

Module CerataHuntRepoLogic.

(** Strings are sequences of bytes here; [/] is one byte and is no part
    of any longer UTF-8 sequence, so cutting at [/] cuts where the
    source's UTF-16 strings are cut. *)
Definition slash : ascii := "/"%char.

(** [repo.split('/')]. *)
Fixpoint split (repo : string) : list string :=
  match repo with
  | EmptyString => [EmptyString]
  | String c rest =>
      if Ascii.eqb c slash then EmptyString :: split rest
      else match split rest with
           | part :: parts => String c part :: parts
           | [] => [String c EmptyString]
           end
  end.

(** The longest prefix without [/], what a greedy [[^/]+] consumes, and
    the rest of the string. *)
Fixpoint segment (s : string) : string * string :=
  match s with
  | EmptyString => (EmptyString, EmptyString)
  | String c rest =>
      if Ascii.eqb c slash then (EmptyString, s)
      else let '(taken, remaining) := segment rest in (String c taken, remaining)
  end.

(** [s] without the prefix [p], when [s] starts with [p]. *)
Fixpoint afterPrefix (p s : string) : option string :=
  match p, s with
  | EmptyString, _ => Some s
  | String a p', String b s' =>
      if Ascii.eqb a b then afterPrefix p' s' else None
  | String _ _, EmptyString => None
  end.

(** The pattern [github\.com\/([^/]+)\/([^/]+)] tried at the start of
    [s].  A group cannot contain [/], so the first group is the whole
    segment up to the next [/], which must be there, and the second is
    the whole segment after it; both must be non-empty. *)
Definition matchHere (s : string) : option (string * string) :=
  match afterPrefix "github.com/" s with
  | None => None
  | Some s1 =>
      match segment s1 with
      | (EmptyString, _) => None
      | (group1, String _ s2) =>
          match segment s2 with
          | (EmptyString, _) => None
          | (group2, _) => Some (group1, group2)
          end
      | (_, EmptyString) => None
      end
  end.

(** [repo.match(/github\.com\/([^/]+)\/([^/]+)/)]: the leftmost position
    at which the pattern matches. *)
Fixpoint matchGitHub (s : string) : option (string * string) :=
  match matchHere s with
  | Some groups => Some groups
  | None =>
      match s with
      | EmptyString => None
      | String _ rest => matchGitHub rest
      end
  end.

(** The double quote character, and the message of the second [throw]:
    [Invalid repository format. Use 'owner/name' or full GitHub URL] with
    double quotes around [owner/name]. *)
Definition doubleQuote : string := String (ascii_of_nat 34) EmptyString.

Definition invalidFormat : string :=
  "Invalid repository format. Use " +:+ doubleQuote +:+ "owner/name"
  +:+ doubleQuote +:+ " or full GitHub URL".

(** [parseRepoIdentifier(repo)]. *)
Definition parseRepoIdentifier (repo : string) : attempt RepoIdentifier.t :=
  if String.prefix "http://" repo || String.prefix "https://" repo then
    match matchGitHub repo with
    | None => Raised InvalidParams ("Invalid GitHub URL: " +:+ repo)
    | Some (group1, group2) =>
        Returned {| RepoIdentifier.owner := group1;
                    RepoIdentifier.name := group2 |}
    end
  else
    match split repo with
    | [part0; part1] =>
        Returned {| RepoIdentifier.owner := part0;
                    RepoIdentifier.name := part1 |}
    | _ => Raised InvalidParams invalidFormat
    end.

(** The truthiness of [repo.language]: [null] and the empty string are
    falsy. *)
Definition truthy (s : option string) : bool :=
  match s with
  | None | Some EmptyString => false
  | Some (String _ _) => true
  end.

(** [extractDimensions(repo)].  [getTime s] stands for
    [new Date(s).getTime()] and [now] for [new Date().getTime()], both in
    milliseconds. *)
Definition extractDimensions (getTime : string -> Q) (now : Q)
    (repo : GitHubRepo.t) : RawDimensions :=
  let ageInDays :=
    (now - getTime (GitHubRepo.created_at repo)) / (1000 * 60 * 60 * 24) in
  let ageInYears := ageInDays / 365 in
  let daysSinceUpdate :=
    (now - getTime (GitHubRepo.updated_at repo)) / (1000 * 60 * 60 * 24) in
  let updateRecency := Math_max 0 (1 - daysSinceUpdate / 365) in
  let issueRatio :=
    GitHubRepo.open_issues_count repo / (GitHubRepo.stargazers_count repo + 1) in
  let issueHealth := Math_max 0 (1 - Math_min 1 issueRatio) in
  let psi := updateRecency * 0.6 + issueHealth * 0.4 in
  let maturity := Math_min 1 (ageInYears / 5) in
  let activitySignal := Math_min 1 (GitHubRepo.stargazers_count repo / 10000) in
  let rho := maturity * 0.7 + activitySignal * 0.3 in
  let recentActivity := Math_min 1 (1 / (daysSinceUpdate + 1)) in
  let communitySize :=
    Math_min 1 ((GitHubRepo.stargazers_count repo + GitHubRepo.forks_count repo)
                / 5000) in
  let q := recentActivity * 0.5 + communitySize * 0.5 in
  let forkRatio :=
    GitHubRepo.forks_count repo / (GitHubRepo.stargazers_count repo + 1) in
  let forkHealth := Math_min 1 (forkRatio * 5) in
  let hasLanguage := if truthy (GitHubRepo.language repo) then 0.3 else 0 in
  let hasWiki := if GitHubRepo.has_wiki repo then 0.2 else 0 in
  let popularity := Math_min 1 (GitHubRepo.stargazers_count repo / 50000) in
  let f := Math_min 1 (forkHealth * 0.3 + hasLanguage + hasWiki
                       + popularity * 0.2) in
  {| psi := psi; rho := rho; q := q; f := f |}.

(** [daysSinceUpdate] of [extractDimensions]. *)
Definition daysSinceUpdate (getTime : string -> Q) (now : Q)
    (repo : GitHubRepo.t) : Q :=
  (now - getTime (GitHubRepo.updated_at repo)) / (1000 * 60 * 60 * 24).

(** [detectTests(repo)]: [a > b] is [b < a]. *)
Definition detectTests (repo : GitHubRepo.t) : bool :=
  (100 <? GitHubRepo.stargazers_count repo)
  && (GitHubRepo.open_issues_count repo <? 100).

(** The two synchronous steps of [execute] between the fetch and the
    storage: [extractDimensions] and then [perceive] on the injected
    service. *)
Definition perceiveRepository (roseGlass : RoseGlassService.t)
    (getTime : string -> Q) (now : Q) (repoData : GitHubRepo.t)
    (lens : option string) : completion PerceptionReport :=
  let dimensions := extractDimensions getTime now repoData in
  perceive roseGlass dimensions lens.

End CerataHuntRepoLogic.

Import CerataHuntRepoLogic.

(** ** The rows of [generateWarnings] and the mean of [assessConfidence] *)

(** The six conditions of [generateWarnings] with their messages, in the
    order of the method body. *)
Definition warningRules (d : ExtendedDimensions) (coherence : Q)
  : list (bool * string) :=
  [ (coherence <? 1.0,
     "Low overall coherence - substrate may be unstable");
    ((psi d <=? 0.3) && (q d >=? 0.7),
     "High activation with low consistency - potential instability");
    ((f d <=? 0.3) && (rho d >=? 0.5),
     "Isolated despite maturity - integration issues");
    (lambda d >=? 0.6,
     "High observer interference - perception may be distorted");
    (q d >=? 0.9,
     "Extreme activation detected - biological optimization applied");
    ((tau d <=? 0.2) && (rho d >=? 0.5),
     "Shallow temporal depth despite accumulated wisdom - anomaly") ].

(** The local constant [signalStrength] of [assessConfidence]. *)
Definition signalStrength (d : RawDimensions) : Q :=
  (psi d + rho d + q d + f d) / 4.

(** All four raw dimensions within the unit interval. *)
Definition raw_in_unit (d : RawDimensions) : Prop :=
  in_unit (psi d) /\ in_unit (rho d) /\ in_unit (q d) /\ in_unit (f d).

(** Repository data as the GitHub API delivers it: counts that are not
    negative and dates that are not in the future. *)
Definition plausible (getTime : string -> Q) (now : Q) (repo : GitHubRepo.t)
  : Prop :=
  0 <= GitHubRepo.stargazers_count repo /\
  0 <= GitHubRepo.forks_count repo /\
  0 <= GitHubRepo.open_issues_count repo /\
  getTime (GitHubRepo.created_at repo) <= now /\
  getTime (GitHubRepo.updated_at repo) <= now.

(** Sample repository data: ten years old, updated two days before
    [sampleNow]. *)
Definition sampleRepo : GitHubRepo.t := {|
  GitHubRepo.id := 1;
  GitHubRepo.name := "react";
  GitHubRepo.full_name := "facebook/react";
  GitHubRepo.owner := "facebook";
  GitHubRepo.html_url := "https://github.com/facebook/react";
  GitHubRepo.description := None;
  GitHubRepo.stargazers_count := 200000;
  GitHubRepo.forks_count := 40000;
  GitHubRepo.language := Some "JavaScript";
  GitHubRepo.created_at := "created";
  GitHubRepo.updated_at := "updated";
  GitHubRepo.open_issues_count := 1000;
  GitHubRepo.has_wiki := true;
  GitHubRepo.topics := None
|}.

Definition sampleTime (date : string) : Q :=
  if String.eqb date "created" then 0 else 86400000 * 3650.

Definition sampleNow : Q := 86400000 * 3652.

(** The same repository without open issues, seen by a clock that is one
    day behind its last update. *)
Definition quietRepo : GitHubRepo.t := {|
  GitHubRepo.id := 1;
  GitHubRepo.name := "react";
  GitHubRepo.full_name := "facebook/react";
  GitHubRepo.owner := "facebook";
  GitHubRepo.html_url := "https://github.com/facebook/react";
  GitHubRepo.description := None;
  GitHubRepo.stargazers_count := 200000;
  GitHubRepo.forks_count := 40000;
  GitHubRepo.language := Some "JavaScript";
  GitHubRepo.created_at := "created";
  GitHubRepo.updated_at := "updated";
  GitHubRepo.open_issues_count := 0;
  GitHubRepo.has_wiki := true;
  GitHubRepo.topics := None
|}.

Definition earlyNow : Q := 86400000 * 3649.

(** ** Strings without [/] *)

(** No character of [s] is [/]. *)
Fixpoint slashFree (s : string) : bool :=
  match s with
  | EmptyString => true
  | String c rest => negb (Ascii.eqb c slash) && slashFree rest
  end.

(** The number of [/] in [s]. *)
Fixpoint countSlashes (s : string) : nat :=
  match s with
  | EmptyString => 0
  | String c rest =>
      (if Ascii.eqb c slash then 1 else 0) + countSlashes rest
  end.

(** The condition of the first [if] of [parseRepoIdentifier]. *)
Definition isUrl (repo : string) : bool :=
  String.prefix "http://" repo || String.prefix "https://" repo.

(** [tail] is empty or begins with [/]: where a greedy [[^/]+] stops. *)
Definition stopsSegment (tail : string) : Prop :=
  tail = EmptyString \/ exists rest, tail = String slash rest.

(** [repo] contains [github.com/owner/name], with [owner] and [name]
    non-empty and free of [/] and [name] running up to the next [/] or
    the end. *)
Definition mentionsRepository (repo owner name : string) : Prop :=
  owner <> EmptyString /\ name <> EmptyString /\
  slashFree owner = true /\ slashFree name = true /\
  exists before after,
    stopsSegment after /\
    repo = before +:+ "github.com/" +:+ owner +:+ "/" +:+ name +:+ after.

(** ** The numeric code over IEEE binary64

    The same functions with the same names over the kernel's primitive
    binary64 floats, which compute as JavaScript numbers do (round to
    nearest even, overflow to the infinities, NaN).  They are evaluated
    at concrete inputs only, where rounding or overflow decides. *)

Module Binary64.

Import PrimFloat.
#[local] Set Warnings "-inexact-float".
#[local] Open Scope float_scope.

(** [Math.max(a, b)] and [Math.min(a, b)]: NaN if either argument is NaN,
    and [+0] counts as larger than [-0]. *)
Definition Math_max (a b : float) : float :=
  if orb (is_nan a) (is_nan b) then nan
  else if a <? b then b
  else if b <? a then a
  else match classify a with FloatClass.NZero => b | _ => a end.

Definition Math_min (a b : float) : float :=
  if orb (is_nan a) (is_nan b) then nan
  else if a <? b then a
  else if b <? a then b
  else match classify a with FloatClass.PZero => b | _ => a end.

(** [optimizeQ(q, Km, Ki)]; [q >= 1] is [1 <= q]. *)
Definition optimizeQ (q Km Ki : float) : float :=
  if q <=? 0 then 0
  else
    let q := if 1 <=? q then 0.999 else q in
    let denominator := Km + q + (q * q) / Ki in
    q / denominator.

Record RawDimensions : Type := {
  psi : float;
  rho : float;
  q : float;
  f : float
}.

Record ExtendedDimensions : Type := {
  raw :> RawDimensions;
  tau : float;
  lambda : float
}.

(** [estimateTemporalDepth(d)]. *)
Definition estimateTemporalDepth (d : RawDimensions) : float :=
  let rawTau := rho d * 0.6 + psi d * 0.4 in
  Math_min 1.0 (Math_max 0.0 rawTau).

(** [estimateLensInterference(d)]. *)
Definition estimateLensInterference (d : RawDimensions) : float :=
  let inconsistency := 1.0 - psi d in
  let rawLambda := inconsistency * q d * 0.5 in
  Math_min 1.0 (Math_max 0.0 rawLambda).

(** [calculateCoherence(dimensions, lens)] for a lens with the constants
    [Km] and [Ki]: the pair of [coherence] and [qOptimized]. *)
Definition calculateCoherence (dimensions : ExtendedDimensions)
    (Km Ki : float) : float * float :=
  let qOptimized := optimizeQ (q dimensions) Km Ki in
  let coupling := tau dimensions * lambda dimensions in
  let rawCoherence :=
    psi dimensions + rho dimensions * psi dimensions + qOptimized
    + f dimensions * psi dimensions + coupling in
  let coherence := Math_min 4.0 (Math_max 0.0 rawCoherence) in
  (coherence, qOptimized).

(** The numeric fields of the report of [perceive(dimensions, lensName)]
    for a lens that resolves to the constants [Km] and [Ki]: the extended
    dimensions, [coherence] and [qOptimized]. *)
Definition perceive (dimensions : RawDimensions) (Km Ki : float)
  : ExtendedDimensions * float * float :=
  let extended :=
    {| raw := dimensions;
       tau := estimateTemporalDepth dimensions;
       lambda := estimateLensInterference dimensions |} in
  let '(coherence, qOptimized) := calculateCoherence extended Km Ki in
  (extended, coherence, qOptimized).



(** The [lambda] of that report. *)
Definition reportLambda (dimensions : RawDimensions) : float :=
  estimateLensInterference dimensions.



Definition tinyKm : float := 1e-300.
Definition hugeKi : float := 1e300.
Definition half : float := 0.5.
Definition smallestPositive : float := 5e-324.
Definition four : float := 4.
Definition one : float := 1.
Definition zero : float := 0.

Definition absorbedDimensions : RawDimensions :=
  {| psi := 1e-17; rho := 0.5; q := 1; f := 0.5 |}.

End Binary64.

(** * Properties *)

(** ** Comparisons, [Math.min] and [Math.max] *)

Section Comparisons.

Lemma le_true (x y : Q) : (x <=? y) = true <-> x <= y.
Proof. unfold JsNumber.le. apply Qle_bool_iff. Qed.

Lemma le_false (x y : Q) : (x <=? y) = false <-> y < x.
Proof.
  unfold JsNumber.le. rewrite <- not_true_iff_false, Qle_bool_iff.
  split; [apply Qnot_le_lt | apply Qlt_not_le].
Qed.

Lemma ge_true (x y : Q) : (x >=? y) = true <-> y <= x.
Proof. apply le_true. Qed.

Lemma ge_false (x y : Q) : (x >=? y) = false <-> x < y.
Proof. apply le_false. Qed.

Lemma lt_true (x y : Q) : (x <? y) = true <-> x < y.
Proof.
  unfold JsNumber.lt. rewrite negb_true_iff. apply (le_false y x).
Qed.

Lemma Math_max_cases (a b : Q) :
  (a < b /\ Math_max a b == b) \/ (b <= a /\ Math_max a b == a).
Proof. apply Q.max_spec. Qed.

Lemma Math_min_cases (a b : Q) :
  (a < b /\ Math_min a b == a) \/ (b <= a /\ Math_min a b == b).
Proof. apply Q.min_spec. Qed.

(** [Math.min(hi, Math.max(lo, x))] lands between [lo] and [hi]. *)
Lemma min_max_bounds (lo hi x : Q) :
  lo <= hi -> lo <= Math_min hi (Math_max lo x) <= hi.
Proof.
  intros Hlh.
  destruct (Math_max_cases lo x) as [[? Hm] | [? Hm]];
    destruct (Math_min_cases hi (Math_max lo x)) as [[? Hn] | [? Hn]];
    rewrite Hn; rewrite ?Hm in *; lra.
Qed.

(** ... and is [x] itself when [x] already lies there. *)
Lemma min_max_inside (lo hi x : Q) :
  lo <= x <= hi -> Math_min hi (Math_max lo x) == x.
Proof.
  intros [Hl Hh].
  destruct (Math_max_cases lo x) as [[? Hm] | [? Hm]];
    destruct (Math_min_cases hi (Math_max lo x)) as [[? Hn] | [? Hn]];
    rewrite Hn; rewrite ?Hm in *; lra.
Qed.

Lemma min_max_above (lo hi x : Q) :
  lo <= hi -> hi <= x -> Math_min hi (Math_max lo x) == hi.
Proof.
  intros Hlh Hx.
  destruct (Math_max_cases lo x) as [[? Hm] | [? Hm]];
    destruct (Math_min_cases hi (Math_max lo x)) as [[? Hn] | [? Hn]];
    rewrite Hn; rewrite ?Hm in *; lra.
Qed.

Lemma min_max_below (lo hi x : Q) :
  lo <= hi -> x <= lo -> Math_min hi (Math_max lo x) == lo.
Proof.
  intros Hlh Hx.
  destruct (Math_max_cases lo x) as [[? Hm] | [? Hm]];
    destruct (Math_min_cases hi (Math_max lo x)) as [[? Hn] | [? Hn]];
    rewrite Hn; rewrite ?Hm in *; lra.
Qed.

End Comparisons.

(** ** The optimizer *)

Section Optimizer.

Variables a Km Ki : Q.

(** On a positive activation below [1] the two guards fall through. *)
Lemma optimizeQ_inside :
  0 < a -> a < 1 -> optimizeQ a Km Ki = a / (Km + a + (a * a) / Ki).
Proof.
  intros H0 H1. unfold optimizeQ.
  apply le_false in H0. apply ge_false in H1. rewrite H0, H1. reflexivity.
Qed.

Lemma inhibition_term_pos : 0 < a -> 0 < Ki -> 0 < (a * a) / Ki.
Proof.
  intros H0 HKi. apply Qlt_shift_div_l; [assumption | nra].
Qed.

Lemma denominator_above :
  0 < a -> 0 < Km -> 0 < Ki -> a < Km + a + (a * a) / Ki.
Proof.
  intros H0 HKm HKi. pose proof (inhibition_term_pos H0 HKi). lra.
Qed.

End Optimizer.

(** A quotient over a positive divisor [d] is below its dividend exactly
    when [d] exceeds [1]. *)
Lemma quotient_below_dividend (x d : Q) :
  0 < x -> 0 < d -> (x / d < x <-> 1 < d).
Proof.
  intros Hx Hd.
  assert (Hr : x / d * d == x) by (field; lra).
  assert (Hpos : 0 < x / d) by (apply Qlt_shift_div_l; lra).
  split; intros H; nra.
Qed.

(** C1, as stated, fails: with the default constants an activation of
    [0.1] is raised to [0.32], because the denominator
    [0.2 + 0.1 + 0.01 / 0.8 = 0.3125] is below [1]. *)
Lemma C1_small_activation_is_amplified :
  0 < 0.1 /\ 0.1 < 1 /\ 0 < 0.2 /\ 0 < 0.8 /\
  optimizeQ 0.1 0.2 0.8 == 0.32 /\
  ~ optimizeQ 0.1 0.2 0.8 < 0.1.
Proof.
  repeat split; try reflexivity.
  vm_compute. discriminate.
Qed.

(** C1, amended: for an activation [a] strictly between [0] and [1] and
    positive constants, [optimizeQ a Km Ki] is [a / (Km + a + a²/Ki)] and
    lies between [0] and [1]; it is at most [a] whenever [Km + a] is at
    least [1], and it exceeds [a] whenever the denominator
    [Km + a + a²/Ki] is at most one half.  (The bounds are the ones that
    hold of the binary64 computation as well, where the value can reach
    [1] and can equal [a].) *)
Theorem C1_optimizeQ_damps_when_saturation_is_large (a Km Ki : Q) :
  0 < a -> a < 1 -> 0 < Km -> 0 < Ki ->
  optimizeQ a Km Ki = a / (Km + a + (a * a) / Ki) /\
  0 <= optimizeQ a Km Ki <= 1 /\
  (1 <= Km + a -> optimizeQ a Km Ki <= a) /\
  (Km + a + (a * a) / Ki <= 1 # 2 -> a < optimizeQ a Km Ki).
Proof.
  intros H0 H1 HKm HKi.
  pose proof (denominator_above a Km Ki H0 HKm HKi) as Hd.
  pose proof (inhibition_term_pos a Ki H0 HKi) as Ht.
  rewrite (optimizeQ_inside a Km Ki H0 H1).
  set (d := Km + a + (a * a) / Ki) in *.
  assert (Hdef : d == Km + a + (a * a) / Ki) by reflexivity.
  clearbody d.
  assert (Hpos : 0 < a / d) by (apply Qlt_shift_div_l; lra).
  assert (Hone : a / d < 1) by (apply Qlt_shift_div_r; lra).
  assert (Hr : a / d * d == a) by (field; lra).
  split; [reflexivity |].
  split; [lra |].
  split.
  - intros Hlarge. apply Qlt_le_weak.
    apply quotient_below_dividend; lra.
  - intros Hsmall.
    assert (Hhalf : a / d * d <= a / d * (1 # 2))
      by (apply Qmult_le_l; lra).
    lra.
Qed.

Lemma C1_optimizeQ_damps_when_saturation_is_large_witness :
  optimizeQ 0.5 0.6 0.8 = 0.5 / (0.6 + 0.5 + (0.5 * 0.5) / 0.8) /\
  0 <= optimizeQ 0.5 0.6 0.8 <= 1 /\
  (1 <= 0.6 + 0.5 -> optimizeQ 0.5 0.6 0.8 <= 0.5) /\
  (0.6 + 0.5 + (0.5 * 0.5) / 0.8 <= 1 # 2 -> 0.5 < optimizeQ 0.5 0.6 0.8).
Proof.
  apply (C1_optimizeQ_damps_when_saturation_is_large 0.5 0.6 0.8);
    reflexivity.
Defined.

(** ** The orchestration: [perceive] after [getLens] *)

Section Perceive.

Variable this : RoseGlassService.t.
Variable dimensions : RawDimensions.
Variable lensName : option string.

(** Once the lens is resolved nothing else in [perceive] can throw. *)
Lemma perceive_resolved (lens : LensCalibration) :
  getLens this lensName = Normal lens ->
  perceive this dimensions lensName = Normal (reportFor dimensions lens).
Proof.
  intros Hlens. unfold perceive. rewrite Hlens. reflexivity.
Qed.

(** A failed resolution is the failure of the whole call. *)
Lemma perceive_unresolved (message : string) :
  getLens this lensName = Throw message ->
  perceive this dimensions lensName = Throw message.
Proof.
  intros Hlens. unfold perceive. rewrite Hlens. reflexivity.
Qed.

Lemma getLens_registered (n : string) (lens : LensCalibration) :
  lenses this !! n = Some lens -> getLens this (Some n) = Normal lens.
Proof.
  intros Hn. unfold getLens. simpl. rewrite Hn. reflexivity.
Qed.

End Perceive.

(** The estimates stay in the unit interval on every input. *)
Lemma estimateTemporalDepth_unit (d : RawDimensions) :
  in_unit (estimateTemporalDepth d).
Proof.
  unfold in_unit, estimateTemporalDepth.
  pose proof (min_max_bounds 0.0 1.0 (rho d * 0.6 + psi d * 0.4)).
  simpl. lra.
Qed.

Lemma estimateLensInterference_unit (d : RawDimensions) :
  in_unit (estimateLensInterference d).
Proof.
  unfold in_unit, estimateLensInterference.
  pose proof (min_max_bounds 0.0 1.0 ((1.0 - psi d) * q d * 0.5)).
  simpl. lra.
Qed.

(** ** C2 *)

(** C2, as stated, fails: a positive activation with a negative
    saturation constant is not rejected.  [optimizeQ] returns
    [0.5 / (-0.2 + 0.5 + 0.25/0.8) = 40/49], and [perceive] under a
    registered calibration with that constant returns a report carrying
    this value. *)
Lemma C2_negative_constant_is_not_rejected :
  0 < 0.5 /\ -0.2 <= 0 /\
  optimizeQ_call 0.5 (Some (-0.2)) (Some 0.8)
    <> Throw "invalid kinetic constants" /\
  optimizeQ 0.5 (-0.2) 0.8 == 40 # 49 /\
  exists report,
    perceive (registerLens new negativeKmLens) halfDimensions
             (Some "negative-km") = Normal report /\
    qOptimized report == 40 # 49.
Proof.
  split; [reflexivity |]. split; [discriminate |].
  split; [discriminate |]. split; [reflexivity |].
  eexists. split; [vm_compute; reflexivity | reflexivity].
Qed.

(** C2, amended: [optimizeQ] has no failure path: a call returns a number
    whatever the constants, and [perceive] under any registered
    calibration returns a report whose optimized activation is that
    number.  For an activation [a <= 0] the result is [0] for all
    constants alike. *)
Theorem C2_optimizeQ_returns_and_short_circuits
    (a Km1 Ki1 Km2 Ki2 : Q) (this : RoseGlassService.t) (n : string)
    (lens : LensCalibration) (d : RawDimensions) :
  optimizeQ_call a (Some Km1) (Some Ki1) = Normal (optimizeQ a Km1 Ki1) /\
  (lenses this !! n = Some lens ->
   exists report,
     perceive this d (Some n) = Normal report /\
     qOptimized report
       = optimizeQ (q d) (Km (biologicalParams lens))
                   (Ki (biologicalParams lens))) /\
  (a <= 0 -> optimizeQ a Km1 Ki1 = 0 /\ optimizeQ a Km2 Ki2 = 0).
Proof.
  split; [reflexivity |]. split.
  - intros Hn. exists (reportFor d lens). split; [| reflexivity].
    apply perceive_resolved, getLens_registered, Hn.
  - intros Ha. apply le_true in Ha. unfold optimizeQ. rewrite Ha. auto.
Qed.

Lemma C2_optimizeQ_returns_and_short_circuits_witness :
  lenses (registerLens new negativeKmLens) !! "negative-km"
    = Some negativeKmLens /\
  0 <= 0 /\
  (exists report,
     perceive (registerLens new negativeKmLens) halfDimensions
              (Some "negative-km") = Normal report /\
     qOptimized report = optimizeQ 0.5 (-0.2) 0.8) /\
  optimizeQ 0 (-0.2) 0 = 0 /\ optimizeQ 0 0.2 0.8 = 0.
Proof.
  pose proof (C2_optimizeQ_returns_and_short_circuits
                0 (-0.2) 0 0.2 0.8 (registerLens new negativeKmLens)
                "negative-km" negativeKmLens halfDimensions)
    as [_ [Hperceive Hzero]].
  assert (Hn : lenses (registerLens new negativeKmLens) !! "negative-km"
               = Some negativeKmLens) by (vm_compute; reflexivity).
  assert (H0 : 0 <= 0) by (vm_compute; discriminate).
  split; [exact Hn |]. split; [exact H0 |].
  split; [exact (Hperceive Hn) | exact (Hzero H0)].
Defined.

(** ** C3 and C10: what is clamped and what is not *)

(** C3, as stated, fails: a raw consistency of [5] and a raw wisdom of
    [-1] are neither rejected nor clamped.  [perceive] returns a report
    that carries both unchanged, derives the tag [high-consistency] from
    the first and [immature] from the second, and feeds them to the
    coherence formula. *)
Lemma C3_out_of_range_input_passes_through :
  ~ in_unit (psi outOfRangeDimensions) /\
  ~ in_unit (rho outOfRangeDimensions) /\
  perceive new outOfRangeDimensions None
    <> Throw "malformed dimensions" /\
  exists report,
    perceive new outOfRangeDimensions None = Normal report /\
    psi (dimensions report) = 5 /\
    rho (dimensions report) = -1 /\
    patterns report = ["high-consistency"; "immature"; "deep-history"] /\
    rawCoherence (dimensions report) codeAnalysisLens == 485 # 162.
Proof.
  split; [intros [_ H]; vm_compute in H; auto |].
  split; [intros [H _]; vm_compute in H; auto |].
  split; [vm_compute; discriminate |].
  eexists. split; [vm_compute; reflexivity |].
  repeat split.
Qed.


(** C10: on every raw input, in range or not, the estimated temporal
    depth and the estimated interference lie in [0,1]; and the raw
    dimensions themselves reach the report as they came, next to these
    two estimates. *)
Theorem C10_derived_dimensions_in_unit_interval (d : RawDimensions) :
  in_unit (estimateTemporalDepth d) /\
  in_unit (estimateLensInterference d) /\
  forall (this : RoseGlassService.t) (lensName : option string)
         (lens : LensCalibration),
    getLens this lensName = Normal lens ->
    exists report,
      perceive this d lensName = Normal report /\
      raw (dimensions report) = d /\
      tau (dimensions report) = estimateTemporalDepth d /\
      lambda (dimensions report) = estimateLensInterference d.
Proof.
  split; [apply estimateTemporalDepth_unit |].
  split; [apply estimateLensInterference_unit |].
  intros this lensName lens Hlens. exists (reportFor d lens).
  split; [apply perceive_resolved, Hlens |]. repeat split.
Qed.

Lemma C10_derived_dimensions_witness :
  in_unit (estimateTemporalDepth outOfRangeDimensions) /\
  in_unit (estimateLensInterference outOfRangeDimensions) /\
  getLens new None = Normal codeAnalysisLens /\
  exists report,
    perceive new outOfRangeDimensions None = Normal report /\
    raw (dimensions report) = outOfRangeDimensions /\
    tau (dimensions report) = estimateTemporalDepth outOfRangeDimensions /\
    lambda (dimensions report)
      = estimateLensInterference outOfRangeDimensions.
Proof.
  destruct (C10_derived_dimensions_in_unit_interval outOfRangeDimensions)
    as [Htau [Hlambda Hreport]].
  assert (Hlens : getLens new None = Normal codeAnalysisLens)
    by (vm_compute; reflexivity).
  split; [exact Htau |]. split; [exact Hlambda |].
  split; [exact Hlens |].
  exact (Hreport new None codeAnalysisLens Hlens).
Defined.

(** ** C9, C4, C5, C6: the estimates and the coherence formula *)

(** The code's [Math.min(hi, Math.max(lo, x))] is the specification's
    [clamp(x, lo, hi)], up to the representation of equal rationals. *)
Lemma min_max_is_clamp (lo hi lo' hi' x y : Q) :
  lo <= hi -> lo' == lo -> hi' == hi -> x == y ->
  Math_min hi' (Math_max lo' x) == Spec.clamp y lo hi.
Proof.
  intros Hlh Hlo Hhi Hxy. unfold Spec.clamp.
  destruct (y <? lo) eqn:Hbelow.
  - apply lt_true in Hbelow.
    rewrite (min_max_below lo' hi' x); lra.
  - destruct (hi <? y) eqn:Habove.
    + apply lt_true in Habove.
      rewrite (min_max_above lo' hi' x); lra.
    + unfold JsNumber.lt in Hbelow, Habove.
      apply negb_false_iff, le_true in Hbelow.
      apply negb_false_iff, le_true in Habove.
      rewrite (min_max_inside lo' hi' x); lra.
Qed.

(** C9: the derived temporal depth is [clamp01(0.6·rho + 0.4·psi)] and the
    derived interference is [clamp01(0.5·(1 − psi)·q)]. *)
Theorem C9_estimates_follow_the_frozen_coefficients (d : RawDimensions) :
  estimateTemporalDepth d == Spec.clamp01 (0.6 * rho d + 0.4 * psi d) /\
  estimateLensInterference d == Spec.clamp01 (0.5 * (1 - psi d) * q d) /\
  estimateTemporalDepth d == Spec.temporalDepth (psi d) (rho d) /\
  estimateLensInterference d == Spec.interference (psi d) (q d).
Proof.
  assert (Htau : estimateTemporalDepth d
                 == Spec.clamp01 (0.6 * rho d + 0.4 * psi d)).
  { unfold estimateTemporalDepth, Spec.clamp01.
    apply min_max_is_clamp; try reflexivity; lra. }
  assert (Hlambda : estimateLensInterference d
                    == Spec.clamp01 (0.5 * (1 - psi d) * q d)).
  { unfold estimateLensInterference, Spec.clamp01.
    apply min_max_is_clamp; try reflexivity; lra. }
  repeat split; assumption.
Qed.

(** C4: [calculateCoherence] returns the optimizer's value for the
    activation and the clamp to [0,4] of
    [psi + rho·psi + qOptimized + f·psi + tau·lambda]. *)
Theorem C4_calculateCoherence_formula
    (d : ExtendedDimensions) (lens : LensCalibration) :
  let Km := Km (biologicalParams lens) in
  let Ki := Ki (biologicalParams lens) in
  let result := calculateCoherence d lens in
  CoherenceResult.qOptimized result = optimizeQ (q d) Km Ki /\
  CoherenceResult.coherence result
    == Spec.clamp (psi d + rho d * psi d + CoherenceResult.qOptimized result
                   + f d * psi d + tau d * lambda d) 0 4 /\
  CoherenceResult.coherence result
    == Spec.coherence (psi d) (rho d) (optimizeQ (q d) Km Ki) (f d)
                      (tau d) (lambda d).
Proof.
  intros Km0 Ki0 result.
  assert (Hclamp :
    CoherenceResult.coherence result
    == Spec.clamp (psi d + rho d * psi d + optimizeQ (q d) Km0 Ki0
                   + f d * psi d + tau d * lambda d) 0 4).
  { subst result. unfold calculateCoherence. simpl.
    apply min_max_is_clamp; try reflexivity; lra. }
  split; [reflexivity |]. split; exact Hclamp.
Qed.

(** Equal rationals, however represented, give equal optimizer values. *)
#[global] Instance optimizeQ_proper :
  Proper (Qeq ==> Qeq ==> Qeq ==> Qeq) optimizeQ.
Proof.
  intros a a' Ha Km0 Km' HKm Ki0 Ki' HKi. unfold optimizeQ, JsNumber.le, JsNumber.ge.
  rewrite (Qleb_comp a a' Ha 0 0 (Qeq_refl 0)).
  rewrite (Qleb_comp 1 1 (Qeq_refl 1) a a' Ha).
  destruct (Qle_bool a' 0); [reflexivity |].
  destruct (Qle_bool 1 a'); simpl; rewrite ?Ha, HKm, HKi; reflexivity.
Qed.

#[global] Instance Math_max_proper : Proper (Qeq ==> Qeq ==> Qeq) Math_max.
Proof. intros x x' Hx y y' Hy. unfold Math_max. rewrite Hx, Hy. reflexivity. Qed.

#[global] Instance Math_min_proper : Proper (Qeq ==> Qeq ==> Qeq) Math_min.
Proof. intros x x' Hx y y' Hy. unfold Math_min. rewrite Hx, Hy. reflexivity. Qed.

(** C5: two calibrations with the same kinetic constants give the same
    coherence and the same optimized activation on every input, whatever
    their weight vectors (and names, descriptions and labels); constants
    that are equal as numbers give results equal as numbers. *)
Theorem C5_weights_do_not_affect_coherence
    (d : ExtendedDimensions) (lens1 lens2 : LensCalibration) :
  (Km (biologicalParams lens1) = Km (biologicalParams lens2) ->
   Ki (biologicalParams lens1) = Ki (biologicalParams lens2) ->
   calculateCoherence d lens1 = calculateCoherence d lens2) /\
  (Km (biologicalParams lens1) == Km (biologicalParams lens2) ->
   Ki (biologicalParams lens1) == Ki (biologicalParams lens2) ->
   CoherenceResult.coherence (calculateCoherence d lens1)
     == CoherenceResult.coherence (calculateCoherence d lens2) /\
   CoherenceResult.qOptimized (calculateCoherence d lens1)
     == CoherenceResult.qOptimized (calculateCoherence d lens2)).
Proof.
  split.
  - intros HKm HKi. unfold calculateCoherence. rewrite HKm, HKi. reflexivity.
  - intros HKm HKi. unfold calculateCoherence. simpl.
    rewrite HKm, HKi. split; reflexivity.
Qed.

Lemma C5_weights_do_not_affect_coherence_witness :
  weights codeAnalysisLens <> weights reweightedLens /\
  calculateCoherence {| raw := halfDimensions; tau := 0.5; lambda := 0.125 |}
                     codeAnalysisLens
  = calculateCoherence {| raw := halfDimensions; tau := 0.5; lambda := 0.125 |}
                       reweightedLens.
Proof.
  split; [discriminate |].
  apply (C5_weights_do_not_affect_coherence
           {| raw := halfDimensions; tau := 0.5; lambda := 0.125 |}
           codeAnalysisLens reweightedLens); reflexivity.
Defined.

(** From [1] upwards the activation is replaced by [0.999]. *)
Lemma optimizeQ_saturated (a Km Ki : Q) :
  1 <= a ->
  optimizeQ a Km Ki = 0.999 / (Km + 0.999 + (0.999 * 0.999) / Ki).
Proof.
  intros H1. unfold optimizeQ.
  assert (H0 : (a <=? 0) = false) by (apply le_false; lra).
  apply ge_true in H1. rewrite H0, H1. reflexivity.
Qed.

(** With positive constants a positive activation is mapped strictly
    inside the unit interval. *)
Lemma optimizeQ_positive_below_one (a Km Ki : Q) :
  0 < a -> 0 < Km -> 0 < Ki -> 0 < optimizeQ a Km Ki < 1.
Proof.
  intros H0 HKm HKi.
  destruct (Qlt_le_dec a 1) as [Hlt | Hge].
  - rewrite (optimizeQ_inside a Km Ki H0 Hlt).
    pose proof (denominator_above a Km Ki H0 HKm HKi).
    split; [apply Qlt_shift_div_l | apply Qlt_shift_div_r]; lra.
  - rewrite (optimizeQ_saturated a Km Ki Hge).
    assert (H9 : 0 < 0.999) by reflexivity.
    pose proof (denominator_above 0.999 Km Ki H9 HKm HKi).
    split; [apply Qlt_shift_div_l | apply Qlt_shift_div_r]; lra.
Qed.

(** The coherence returned is the clamped [rawCoherence]. *)
Lemma calculateCoherence_raw (d : ExtendedDimensions) (lens : LensCalibration) :
  CoherenceResult.coherence (calculateCoherence d lens)
  = Math_min 4.0 (Math_max 0.0 (rawCoherence d lens)).
Proof. reflexivity. Qed.

Lemma calculateCoherence_bounds (d : ExtendedDimensions) (lens : LensCalibration) :
  0 <= CoherenceResult.coherence (calculateCoherence d lens) <= 4.
Proof.
  rewrite calculateCoherence_raw.
  pose proof (min_max_bounds 0.0 4.0 (rawCoherence d lens)). lra.
Qed.




(** ** C7: the registry *)

Section Registry.

Implicit Types (this : RoseGlassService.t) (c : LensCalibration)
               (cs : list LensCalibration) (n : string).

Lemma registerAll_reachable this cs :
  reachable this -> reachable (registerAll this cs).
Proof.
  revert this. induction cs as [| c cs IH]; intros this Hthis; simpl.
  - exact Hthis.
  - apply IH. constructor. exact Hthis.
Qed.

(** Every state of the service is the constructed one after some list of
    registrations. *)
Lemma reachable_registerAll this :
  reachable this <-> exists cs, this = registerAll new cs.
Proof.
  split.
  - induction 1 as [| this c _ [cs ->]].
    + exists []. reflexivity.
    + exists (cs ++ [c]). unfold registerAll. rewrite fold_left_app.
      reflexivity.
  - intros [cs ->]. apply registerAll_reachable. constructor.
Qed.

(** Registration never changes the default name, ... *)
Lemma defaultLens_reachable this :
  reachable this -> defaultLens this = "code-analysis".
Proof. induction 1; [reflexivity | assumption]. Qed.

(** ... never removes an entry, ... *)
Lemma registerLens_keeps n this c :
  is_Some (lenses this !! n) -> is_Some (lenses (registerLens this c) !! n).
Proof.
  intros Hn. unfold registerLens. simpl.
  destruct (decide (name c = n)) as [-> | Hne].
  - rewrite lookup_insert_eq. eauto.
  - rewrite lookup_insert_ne; assumption.
Qed.

(** ... and files every calibration under its own name. *)
Lemma lenses_keyed_by_name this n c :
  reachable this -> lenses this !! n = Some c -> name c = n.
Proof.
  intros Hthis. revert n c.
  induction Hthis as [| this c' _ IH]; intros n c; simpl.
  - destruct (decide (name codeAnalysisLens = n)) as [<- | Hne].
    + rewrite lookup_insert_eq. intros [= <-]. reflexivity.
    + rewrite lookup_insert_ne by assumption. rewrite lookup_empty.
      discriminate.
  - destruct (decide (name c' = n)) as [<- | Hne].
    + rewrite lookup_insert_eq. intros [= <-]. reflexivity.
    + rewrite lookup_insert_ne by assumption. apply IH.
Qed.

Lemma default_registered this :
  reachable this -> is_Some (lenses this !! "code-analysis").
Proof.
  induction 1 as [| this c _ IH].
  - simpl. rewrite lookup_insert_eq. eauto.
  - apply registerLens_keeps, IH.
Qed.

(** Registrations under other names leave an entry as it is. *)
Lemma registerAll_other n this cs :
  Forall (fun c => name c <> n) cs ->
  lenses (registerAll this cs) !! n = lenses this !! n.
Proof.
  revert this. induction cs as [| c cs IH]; intros this Hcs; simpl.
  - reflexivity.
  - apply Forall_cons in Hcs as [Hc Hcs]. rewrite (IH _ Hcs). simpl.
    apply lookup_insert_ne. exact Hc.
Qed.

Lemma getLens_unregistered this n :
  lenses this !! n = None ->
  getLens this (Some n) = Throw ("Unknown lens: " +:+ n).
Proof.
  intros Hn. unfold getLens. simpl. rewrite Hn. reflexivity.
Qed.

End Registry.

(** C7: in the service as constructed and after any registrations [cs],
    - [getLens] without an identifier returns the calibration stored under
      ['code-analysis'], which is [codeAnalysisLens] until a registration
      under that name replaces it;
    - after [registerLens c], and whatever is registered under other
      names afterwards, [getLens] with [c]'s name returns [c];
    - [getLens] with an identifier that no registration used throws
      ['Unknown lens: <identifier>'], and so does [perceive]. *)
Theorem C7_getLens_resolution (cs : list LensCalibration) :
  let this := registerAll new cs in
  (exists lens,
     getLens this None = Normal lens /\
     lenses this !! "code-analysis" = Some lens /\
     name lens = "code-analysis") /\
  (Forall (fun c => name c <> "code-analysis") cs ->
   getLens this None = Normal codeAnalysisLens) /\
  (forall (c : LensCalibration) (later : list LensCalibration),
     Forall (fun c' => name c' <> name c) later ->
     getLens (registerAll (registerLens this c) later) (Some (name c))
       = Normal c) /\
  (forall n : string,
     n <> "code-analysis" ->
     Forall (fun c => name c <> n) cs ->
     getLens this (Some n) = Throw ("Unknown lens: " +:+ n) /\
     forall d : RawDimensions,
       perceive this d (Some n) = Throw ("Unknown lens: " +:+ n)).
Proof.
  intros this.
  assert (Hthis : reachable this)
    by (apply registerAll_reachable; constructor).
  split; [| split; [| split]].
  - destruct (default_registered this Hthis) as [lens Hlens].
    exists lens. split; [| split].
    + unfold getLens. simpl. rewrite (defaultLens_reachable this Hthis).
      rewrite Hlens. reflexivity.
    + exact Hlens.
    + apply (lenses_keyed_by_name this _ _ Hthis Hlens).
  - intros Hcs. unfold getLens. simpl.
    rewrite (defaultLens_reachable this Hthis). subst this.
    rewrite (registerAll_other _ _ _ Hcs). reflexivity.
  - intros c later Hlater. apply getLens_registered.
    rewrite (registerAll_other _ _ _ Hlater). simpl.
    apply lookup_insert_eq.
  - intros n Hn Hcs.
    assert (Hnone : lenses this !! n = None).
    { subst this. rewrite (registerAll_other _ _ _ Hcs). simpl.
      rewrite lookup_insert_ne by (simpl; congruence).
      apply lookup_empty. }
    split; [apply getLens_unregistered, Hnone |].
    intros d. apply perceive_unresolved, getLens_unregistered, Hnone.
Qed.

Lemma C7_getLens_resolution_witness :
  getLens (registerAll new [negativeKmLens]) None = Normal codeAnalysisLens /\
  getLens (registerAll (registerLens (registerAll new [negativeKmLens])
                                     reweightedLens) [negativeKmLens])
          (Some "reweighted") = Normal reweightedLens /\
  getLens (registerAll new [negativeKmLens]) (Some "does-not-exist")
    = Throw "Unknown lens: does-not-exist" /\
  perceive (registerAll new [negativeKmLens]) halfDimensions
           (Some "does-not-exist")
    = Throw "Unknown lens: does-not-exist".
Proof.
  destruct (C7_getLens_resolution [negativeKmLens])
    as [_ [Hdefault [Hregistered Hunknown]]].
  assert (Hcs1 : Forall (fun c => name c <> "code-analysis") [negativeKmLens])
    by (repeat constructor; discriminate).
  assert (Hcs2 : Forall (fun c => name c <> name reweightedLens)
                        [negativeKmLens])
    by (repeat constructor; discriminate).
  assert (Hcs3 : Forall (fun c => name c <> "does-not-exist") [negativeKmLens])
    by (repeat constructor; discriminate).
  assert (Hne : "does-not-exist" <> "code-analysis") by discriminate.
  split; [exact (Hdefault Hcs1) |].
  split; [exact (Hregistered reweightedLens [negativeKmLens] Hcs2) |].
  destruct (Hunknown "does-not-exist" Hne Hcs3) as [Hget Hperceive].
  split; [exact Hget | exact (Hperceive halfDimensions)].
Defined.

(** ** C8: pattern detection *)

Section Patterns.

(** One conditional [push] of the method body. *)
Let step (detected : list string) (rule : bool * string) : list string :=
  if fst rule then push detected (snd rule) else detected.

Lemma conditional_pushes (rules : list (bool * string)) (detected : list string) :
  fold_left step rules detected = detected ++ Spec.firedTags rules.
Proof.
  revert detected.
  induction rules as [| [condition tag] rules IH]; intros detected; simpl.
  - symmetry. apply app_nil_r.
  - rewrite IH. unfold step, push, Spec.firedTags. simpl.
    destruct condition; simpl; [rewrite <- app_assoc |]; reflexivity.
Qed.

(** The method body is its rule table, read from top to bottom. *)
Lemma detectPatterns_table (d : ExtendedDimensions) (lens : LensCalibration) :
  detectPatterns d lens = Spec.firedTags (Spec.patternRules d).
Proof.
  rewrite <- (app_nil_l (Spec.firedTags _)), <- conditional_pushes.
  reflexivity.
Qed.

(** A tag is emitted exactly when the table pairs it with a condition
    that holds. *)
Lemma firedTags_In (rules : list (bool * string)) (tag : string) :
  In tag (Spec.firedTags rules) <-> In (true, tag) rules.
Proof.
  unfold Spec.firedTags. rewrite in_map_iff. split.
  - intros [[condition tag'] [Htag Hin]]. simpl in Htag. subst tag'.
    apply filter_In in Hin as [Hin Hcondition]. simpl in Hcondition.
    subst condition. exact Hin.
  - intros Hin. exists (true, tag). split; [reflexivity |].
    apply filter_In. split; [exact Hin | reflexivity].
Qed.

End Patterns.

Lemma andb_conditions (b1 b2 : bool) :
  b1 && b2 = true <-> b1 = true /\ b2 = true.
Proof. destruct b1, b2; simpl; intuition congruence. Qed.

Lemma patternRule_In (d : ExtendedDimensions) (tag : string) :
  In (true, tag) (Spec.patternRules d) <->
  (tag = "high-consistency" /\ 0.7 <= psi d) \/
  (tag = "low-consistency" /\ psi d <= 0.3) \/
  (tag = "battle-tested" /\ 0.7 <= rho d) \/
  (tag = "immature" /\ rho d <= 0.3) \/
  (tag = "high-activation" /\ 0.7 <= q d) \/
  (tag = "dormant" /\ q d <= 0.2) \/
  (tag = "well-integrated" /\ 0.7 <= f d) \/
  (tag = "isolated" /\ f d <= 0.3) \/
  (tag = "deep-history" /\ 0.7 <= tau d) \/
  (tag = "ephemeral" /\ tau d <= 0.3) \/
  (tag = "observer-interference" /\ 0.5 <= lambda d) \/
  (tag = "stable-mature" /\ 0.7 <= psi d /\ 0.7 <= rho d) \/
  (tag = "chaotic-active" /\ psi d <= 0.3 /\ 0.7 <= q d) \/
  (tag = "ecosystem-anchor" /\ 0.7 <= f d /\ 0.7 <= rho d).
Proof.
  unfold Spec.patternRules. simpl In.
  rewrite !pair_equal_spec, ?andb_conditions, ?ge_true, ?le_true.
  intuition (subst; auto).
Qed.

(** Membership of one given tag, from the table. *)
Ltac tag_condition :=
  rewrite detectPatterns_table, firedTags_In, patternRule_In;
  intuition congruence.

(** The condition under which each tag is emitted. *)
Lemma detectPatterns_conditions (d : ExtendedDimensions) (lens : LensCalibration) :
  let tags := detectPatterns d lens in
  (In "high-consistency" tags <-> 0.7 <= psi d) /\
  (In "low-consistency" tags <-> psi d <= 0.3) /\
  (In "battle-tested" tags <-> 0.7 <= rho d) /\
  (In "immature" tags <-> rho d <= 0.3) /\
  (In "high-activation" tags <-> 0.7 <= q d) /\
  (In "dormant" tags <-> q d <= 0.2) /\
  (In "well-integrated" tags <-> 0.7 <= f d) /\
  (In "isolated" tags <-> f d <= 0.3) /\
  (In "deep-history" tags <-> 0.7 <= tau d) /\
  (In "ephemeral" tags <-> tau d <= 0.3) /\
  (In "observer-interference" tags <-> 0.5 <= lambda d) /\
  (In "stable-mature" tags <-> 0.7 <= psi d /\ 0.7 <= rho d) /\
  (In "chaotic-active" tags <-> psi d <= 0.3 /\ 0.7 <= q d) /\
  (In "ecosystem-anchor" tags <-> 0.7 <= f d /\ 0.7 <= rho d).
Proof.
  intros tags. subst tags.
  do 13 (split; [tag_condition |]). tag_condition.
Qed.

(** C8: [detectPatterns] emits, in this order, a high tag at [>= 0.7] and
    a low tag at [<= 0.3] for consistency, wisdom, belonging and temporal
    depth, for activation the high tag at [>= 0.7] and [dormant] at
    [<= 0.2], for interference the single tag at [>= 0.5], and then the
    three combination tags, each under two conditions; the high tag and
    the low tag of one dimension never appear together. *)
Theorem C8_detectPatterns_thresholds
    (d : ExtendedDimensions) (lens : LensCalibration) :
  let tags := detectPatterns d lens in
  tags = Spec.firedTags (Spec.patternRules d) /\
  ((In "high-consistency" tags <-> 0.7 <= psi d) /\
   (In "low-consistency" tags <-> psi d <= 0.3) /\
   (In "battle-tested" tags <-> 0.7 <= rho d) /\
   (In "immature" tags <-> rho d <= 0.3) /\
   (In "high-activation" tags <-> 0.7 <= q d) /\
   (In "dormant" tags <-> q d <= 0.2) /\
   (In "well-integrated" tags <-> 0.7 <= f d) /\
   (In "isolated" tags <-> f d <= 0.3) /\
   (In "deep-history" tags <-> 0.7 <= tau d) /\
   (In "ephemeral" tags <-> tau d <= 0.3) /\
   (In "observer-interference" tags <-> 0.5 <= lambda d) /\
   (In "stable-mature" tags <-> 0.7 <= psi d /\ 0.7 <= rho d) /\
   (In "chaotic-active" tags <-> psi d <= 0.3 /\ 0.7 <= q d) /\
   (In "ecosystem-anchor" tags <-> 0.7 <= f d /\ 0.7 <= rho d)) /\
  (forall tag, In tag tags ->
               In tag (List.map snd (Spec.patternRules d))) /\
  Forall (fun opposed => ~ (In (fst opposed) tags /\ In (snd opposed) tags))
         Spec.opposedTags.
Proof.
  intros tags.
  pose proof (detectPatterns_conditions d lens) as Hconditions.
  fold tags in Hconditions.
  split; [apply detectPatterns_table |].
  split; [exact Hconditions |].
  split.
  - intros tag. subst tags. rewrite detectPatterns_table.
    unfold Spec.firedTags.
    rewrite !in_map_iff. intros [rule [Htag Hin]].
    exists rule. split; [exact Htag |].
    apply filter_In in Hin. tauto.
  - destruct Hconditions
      as (Hpsi1 & Hpsi0 & Hrho1 & Hrho0 & Hq1 & Hq0 & Hf1 & Hf0
          & Htau1 & Htau0 & _).
    unfold Spec.opposedTags.
    repeat (apply Forall_cons; split; [simpl; intros [Hhigh Hlow] |]);
      [ apply Hpsi1 in Hhigh; apply Hpsi0 in Hlow; lra
      | apply Hrho1 in Hhigh; apply Hrho0 in Hlow; lra
      | apply Hq1 in Hhigh; apply Hq0 in Hlow; lra
      | apply Hf1 in Hhigh; apply Hf0 in Hlow; lra
      | apply Htau1 in Hhigh; apply Htau0 in Hlow; lra
      | apply Forall_nil; exact I ].
Qed.

(** ** C3, amended *)

(** C3, amended: [perceive] neither clamps nor rejects the raw
    dimensions.  Whenever the lens resolves it returns a report whose four
    raw dimensions are the inputs, unchanged, and everything else in the
    report is computed from these unchanged values: the two estimates,
    and from the dimensions so extended the coherence, the optimized
    activation, the patterns, the warnings and the confidence.  The two
    estimates lie in [0,1], so all six dimensions of the report lie in
    [0,1] when the caller supplied the four raw ones in [0,1]. *)
Theorem C3_perceive_computes_from_unchanged_dimensions
    (this : RoseGlassService.t) (d : RawDimensions)
    (lensName : option string) (lens : LensCalibration) :
  getLens this lensName = Normal lens ->
  exists report,
    perceive this d lensName = Normal report /\
    raw (dimensions report) = d /\
    tau (dimensions report) = estimateTemporalDepth d /\
    lambda (dimensions report) = estimateLensInterference d /\
    coherence report
      = CoherenceResult.coherence
          (calculateCoherence
             {| raw := d; tau := estimateTemporalDepth d;
                lambda := estimateLensInterference d |} lens) /\
    qOptimized report
      = optimizeQ (q d) (Km (biologicalParams lens))
                  (Ki (biologicalParams lens)) /\
    patterns report
      = detectPatterns
          {| raw := d; tau := estimateTemporalDepth d;
             lambda := estimateLensInterference d |} lens /\
    warnings report
      = generateWarnings
          {| raw := d; tau := estimateTemporalDepth d;
             lambda := estimateLensInterference d |} (coherence report) /\
    confidence report
      = assessConfidence
          {| raw := d; tau := estimateTemporalDepth d;
             lambda := estimateLensInterference d |} /\
    (7 # 10 <= psi d -> In "high-consistency" (patterns report)) /\
    (rho d <= 3 # 10 -> In "immature" (patterns report)) /\
    in_unit (tau (dimensions report)) /\
    in_unit (lambda (dimensions report)) /\
    (in_unit (psi d) -> in_unit (rho d) -> in_unit (q d) -> in_unit (f d) ->
     in_unit (psi (dimensions report)) /\ in_unit (rho (dimensions report)) /\
     in_unit (q (dimensions report)) /\ in_unit (f (dimensions report))).
Proof.
  intros Hlens. exists (reportFor d lens).
  split; [apply perceive_resolved, Hlens |].
  do 8 (split; [reflexivity |]).
  destruct (detectPatterns_conditions (dimensions (reportFor d lens)) lens)
    as (Hpsi1 & _ & _ & Hrho0 & _).
  split; [intros Hhigh; apply Hpsi1; simpl; lra |].
  split; [intros Hlow; apply Hrho0; simpl; lra |].
  split; [apply estimateTemporalDepth_unit |].
  split; [apply estimateLensInterference_unit |].
  simpl; auto.
Qed.

Lemma C3_perceive_computes_from_unchanged_dimensions_witness :
  getLens new None = Normal codeAnalysisLens /\
  exists report,
    perceive new outOfRangeDimensions None = Normal report /\
    raw (dimensions report) = outOfRangeDimensions /\
    tau (dimensions report) = estimateTemporalDepth outOfRangeDimensions /\
    In "high-consistency" (patterns report).
Proof.
  assert (Hlens : getLens new None = Normal codeAnalysisLens)
    by (vm_compute; reflexivity).
  split; [exact Hlens |].
  destruct (C3_perceive_computes_from_unchanged_dimensions
              new outOfRangeDimensions None codeAnalysisLens Hlens)
    as (report & Hp & Hraw & Htau & _ & _ & _ & _ & _ & _ & Hhigh & _).
  exists report. repeat split; try assumption.
  apply Hhigh. vm_compute. discriminate.
Defined.

(** ** Worked examples *)

(** The values the specification lists for the optimizer. *)
Example optimizeQ_half : optimizeQ 0.5 0.2 0.8 == 40 # 81.
Proof. reflexivity. Qed.

Example optimizeQ_zero : optimizeQ 0 0.2 0.8 = 0.
Proof. reflexivity. Qed.

Example optimizeQ_one : optimizeQ 1 0.2 0.8 == 799200 # 1957201.
Proof. reflexivity. Qed.

(** Pattern tags at the boundary inputs [0.3], [0.5] and [0.7]. *)
Example detectPatterns_at_three_tenths :
  detectPatterns (uniform 0.3) codeAnalysisLens
  = ["low-consistency"; "immature"; "isolated"; "ephemeral"].
Proof. reflexivity. Qed.

Example detectPatterns_at_half :
  detectPatterns (uniform 0.5) codeAnalysisLens = ["observer-interference"].
Proof. reflexivity. Qed.

Example detectPatterns_at_seven_tenths :
  detectPatterns (uniform 0.7) codeAnalysisLens
  = ["high-consistency"; "battle-tested"; "high-activation";
     "well-integrated"; "deep-history"; "observer-interference";
     "stable-mature"; "ecosystem-anchor"].
Proof. reflexivity. Qed.

(** One full report under the default calibration. *)
Example perceive_half :
  perceive new halfDimensions None
  = Normal (reportFor halfDimensions codeAnalysisLens) /\
  coherence (reportFor halfDimensions codeAnalysisLens) == 2017 # 1296 /\
  confidence (reportFor halfDimensions codeAnalysisLens) = medium /\
  patterns (reportFor halfDimensions codeAnalysisLens) = [] /\
  warnings (reportFor halfDimensions codeAnalysisLens) = [].
Proof. repeat split. Qed.

(** * Further properties of the code *)

(** ** The range of the optimizer *)

Lemma optimizeQ_at_or_above_one (a Km Ki : Q) :
  1 <= a -> optimizeQ a Km Ki = optimizeQ 0.999 Km Ki.
Proof.
  intros H1. rewrite (optimizeQ_saturated a Km Ki H1).
  symmetry. apply optimizeQ_inside; reflexivity.
Qed.

Lemma optimizeQ_nonpositive (a Km Ki : Q) : a <= 0 -> optimizeQ a Km Ki = 0.
Proof.
  intros Ha. apply le_true in Ha. unfold optimizeQ. rewrite Ha. reflexivity.
Qed.

(** With positive constants the value lies between [0] and [1]. *)
Lemma optimizeQ_unit_closed (a Km Ki : Q) :
  0 < Km -> 0 < Ki -> 0 <= optimizeQ a Km Ki <= 1.
Proof.
  intros HKm HKi.
  destruct (Qlt_le_dec 0 a) as [Hpos | Hnonpos].
  - pose proof (optimizeQ_positive_below_one a Km Ki Hpos HKm HKi). lra.
  - rewrite (optimizeQ_nonpositive a Km Ki Hnonpos). lra.
Qed.

(** X2: with positive constants the optimizer's value lies between [0]
    and [1] on every activation, negative ones and ones above [1]
    included; it is [0] on every activation [a <= 0], and on every
    activation [a >= 1] it is the value at [0.999]. *)
Theorem X2_optimizeQ_range (a Km Ki : Q) :
  0 < Km -> 0 < Ki ->
  0 <= optimizeQ a Km Ki <= 1 /\
  (a <= 0 -> optimizeQ a Km Ki = 0) /\
  (1 <= a -> optimizeQ a Km Ki = optimizeQ 0.999 Km Ki).
Proof.
  intros HKm HKi.
  split; [apply optimizeQ_unit_closed; assumption |].
  split; [apply optimizeQ_nonpositive | apply optimizeQ_at_or_above_one].
Qed.

Lemma X2_optimizeQ_range_witness :
  0 <= optimizeQ 7 0.2 0.8 <= 1 /\
  (7 <= 0 -> optimizeQ 7 0.2 0.8 = 0) /\
  (1 <= 7 -> optimizeQ 7 0.2 0.8 = optimizeQ 0.999 0.2 0.8).
Proof. apply (X2_optimizeQ_range 7 0.2 0.8); reflexivity. Defined.


(** ** The optimization curve *)

Section Curve.

Variables (Km Ki : Q) (steps : nat).
Hypothesis steps_pos : (0 < steps)%nat.

Lemma indexNumber_le (i j : nat) :
  (i <= j)%nat -> indexNumber i <= indexNumber j.
Proof.
  intros Hij. unfold indexNumber. rewrite <- Zle_Qle. lia.
Qed.

Lemma indexNumber_steps_pos : 0 < indexNumber steps.
Proof.
  unfold indexNumber. change 0 with (inject_Z 0). rewrite <- Zlt_Qlt. lia.
Qed.

(** The abscissa of the [i]-th point lies in [0,1]. *)
Lemma curve_abscissa (i : nat) :
  (i <= steps)%nat -> 0 <= indexNumber i / indexNumber steps <= 1.
Proof.
  intros Hi. pose proof indexNumber_steps_pos as Hs.
  pose proof (indexNumber_le 0 i ltac:(lia)) as H0.
  pose proof (indexNumber_le i steps Hi) as H1.
  change (indexNumber 0) with 0 in H0.
  split; [apply Qle_shift_div_l | apply Qle_shift_div_r]; lra.
Qed.

Lemma curve_point (i : nat) :
  (i <= steps)%nat ->
  nth_error (getOptimizationCurve Km Ki steps) i
  = Some {| CurvePoint.q := indexNumber i / indexNumber steps;
            CurvePoint.qOpt :=
              optimizeQ (indexNumber i / indexNumber steps) Km Ki |}.
Proof.
  intros Hi. unfold getOptimizationCurve.
  rewrite nth_error_map, nth_error_seq.
  destruct (Nat.ltb_spec i (steps + 1)) as [_ | Hge]; [reflexivity | lia].
Qed.

End Curve.

(** X4: for [steps >= 1], and [steps + 1] within the length an array can
    have, the curve has [steps + 1] points; the [i]-th one pairs the
    activation [i / steps], which lies in [0,1], with the optimizer's
    value there; the first point is [(0, 0)] and the last one is at
    activation [1] and carries the value of the optimizer at [0.999];
    with positive constants every value on the curve lies in [0,1]. *)
Theorem X4_getOptimizationCurve_points (Km Ki : Q) (steps : nat) :
  (0 < steps)%nat ->
  (Z.of_nat steps + 1 <= 4294967295)%Z ->
  let curve := getOptimizationCurve Km Ki steps in
  length curve = S steps /\
  (forall i : nat, (i <= steps)%nat ->
     exists point,
       nth_error curve i = Some point /\
       CurvePoint.q point = indexNumber i / indexNumber steps /\
       0 <= CurvePoint.q point <= 1 /\
       CurvePoint.qOpt point = optimizeQ (CurvePoint.q point) Km Ki) /\
  (exists first,
     nth_error curve 0 = Some first /\
     CurvePoint.q first == 0 /\ CurvePoint.qOpt first = 0) /\
  (exists last,
     nth_error curve steps = Some last /\
     CurvePoint.q last == 1 /\
     CurvePoint.qOpt last = optimizeQ 0.999 Km Ki) /\
  (0 < Km -> 0 < Ki ->
   Forall (fun point => 0 <= CurvePoint.qOpt point <= 1) curve).
Proof.
  intros Hsteps _ curve. subst curve.
  pose proof (indexNumber_steps_pos steps Hsteps) as Hs.
  split; [| split; [| split; [| split]]].
  - unfold getOptimizationCurve. rewrite length_map, length_seq. lia.
  - intros i Hi. eexists. split; [apply curve_point; assumption |]. simpl.
    split; [reflexivity |].
    split; [apply curve_abscissa; assumption | reflexivity].
  - eexists. split; [apply curve_point; lia |]. simpl.
    assert (Hzero : indexNumber 0 / indexNumber steps == 0)
      by (change (indexNumber 0) with 0; field; lra).
    split; [exact Hzero |].
    apply optimizeQ_nonpositive. lra.
  - eexists. split; [apply curve_point; lia |]. simpl.
    assert (Hone : indexNumber steps / indexNumber steps == 1)
      by (field; lra).
    split; [exact Hone |].
    apply optimizeQ_at_or_above_one. lra.
  - intros HKm HKi. unfold getOptimizationCurve.
    apply List.Forall_forall. intros point Hin.
    apply in_map_iff in Hin as [i [<- _]]. simpl.
    apply optimizeQ_unit_closed; assumption.
Qed.

Lemma X4_getOptimizationCurve_points_witness :
  length (getOptimizationCurve 0.2 0.8 10) = 11%nat /\
  (exists last,
     nth_error (getOptimizationCurve 0.2 0.8 10) 10 = Some last /\
     CurvePoint.q last == 1 /\
     CurvePoint.qOpt last = optimizeQ 0.999 0.2 0.8) /\
  Forall (fun point => 0 <= CurvePoint.qOpt point <= 1)
         (getOptimizationCurve 0.2 0.8 10).
Proof.
  destruct (X4_getOptimizationCurve_points 0.2 0.8 10 ltac:(lia) ltac:(lia))
    as (Hlength & _ & _ & Hlast & Hrange).
  split; [exact Hlength |]. split; [exact Hlast |].
  apply Hrange; reflexivity.
Defined.

(** ** Warnings, patterns and confidence in one report *)

Lemma min_max_at_least (lo hi x t : Q) :
  t <= hi -> t <= x -> t <= Math_min hi (Math_max lo x).
Proof.
  intros Hhi Hx.
  destruct (Math_max_cases lo x) as [[? Hm] | [? Hm]];
    destruct (Math_min_cases hi (Math_max lo x)) as [[? Hn] | [? Hn]];
    rewrite Hn; rewrite ?Hm in *; lra.
Qed.

Lemma min_max_at_most (lo hi x t : Q) :
  lo <= t -> x <= t -> Math_min hi (Math_max lo x) <= t.
Proof.
  intros Hlo Hx.
  destruct (Math_max_cases lo x) as [[? Hm] | [? Hm]];
    destruct (Math_min_cases hi (Math_max lo x)) as [[? Hn] | [? Hn]];
    rewrite Hn; rewrite ?Hm in *; lra.
Qed.

(** The method body of [generateWarnings] is its rule table. *)
Lemma generateWarnings_table (d : ExtendedDimensions) (coherence : Q) :
  generateWarnings d coherence = Spec.firedTags (warningRules d coherence).
Proof.
  rewrite <- (app_nil_l (Spec.firedTags _)), <- conditional_pushes.
  reflexivity.
Qed.

Lemma warningRule_In (d : ExtendedDimensions) (coherence : Q) (w : string) :
  In (true, w) (warningRules d coherence) <->
  (w = "Low overall coherence - substrate may be unstable"
   /\ coherence < 1) \/
  (w = "High activation with low consistency - potential instability"
   /\ psi d <= 0.3 /\ 0.7 <= q d) \/
  (w = "Isolated despite maturity - integration issues"
   /\ f d <= 0.3 /\ 0.5 <= rho d) \/
  (w = "High observer interference - perception may be distorted"
   /\ 0.6 <= lambda d) \/
  (w = "Extreme activation detected - biological optimization applied"
   /\ 0.9 <= q d) \/
  (w = "Shallow temporal depth despite accumulated wisdom - anomaly"
   /\ tau d <= 0.2 /\ 0.5 <= rho d).
Proof.
  unfold warningRules. simpl In.
  rewrite !pair_equal_spec, ?andb_conditions, ?ge_true, ?le_true, lt_true.
  assert (H1 : coherence < 1.0 <-> coherence < 1) by (split; intros; lra).
  rewrite H1. intuition (subst; auto).
Qed.

(** Rules with distinct tags emit no tag twice. *)
Lemma firedTags_NoDup (rules : list (bool * string)) :
  List.NoDup (List.map snd rules) -> List.NoDup (Spec.firedTags rules).
Proof.
  unfold Spec.firedTags.
  induction rules as [| [condition tag] rules IH]; simpl; intros Hnodup.
  - constructor.
  - apply List.NoDup_cons_iff in Hnodup as [Hfresh Hnodup].
    destruct condition; simpl; [| apply IH, Hnodup].
    constructor; [| apply IH, Hnodup].
    intros Hin. apply Hfresh.
    apply in_map_iff in Hin as [rule [Htag Hin]].
    apply in_map_iff. exists rule. split; [exact Htag |].
    apply filter_In in Hin. tauto.
Qed.

Ltac warning_condition :=
  rewrite generateWarnings_table, firedTags_In, warningRule_In;
  intuition congruence.

(** The condition under which each warning is emitted. *)
Lemma generateWarnings_conditions (d : ExtendedDimensions) (coherence : Q) :
  let warnings := generateWarnings d coherence in
  (In "Low overall coherence - substrate may be unstable" warnings
   <-> coherence < 1) /\
  (In "High activation with low consistency - potential instability" warnings
   <-> psi d <= 0.3 /\ 0.7 <= q d) /\
  (In "Isolated despite maturity - integration issues" warnings
   <-> f d <= 0.3 /\ 0.5 <= rho d) /\
  (In "High observer interference - perception may be distorted" warnings
   <-> 0.6 <= lambda d) /\
  (In "Extreme activation detected - biological optimization applied" warnings
   <-> 0.9 <= q d) /\
  (In "Shallow temporal depth despite accumulated wisdom - anomaly" warnings
   <-> tau d <= 0.2 /\ 0.5 <= rho d).
Proof.
  intros warnings. subst warnings.
  do 5 (split; [warning_condition |]). warning_condition.
Qed.

(** X5: [generateWarnings] emits its six messages in the order of the
    method body, each at most once and each exactly under its own
    condition: coherence below [1]; consistency [<= 0.3] with activation
    [>= 0.7]; belonging [<= 0.3] with wisdom [>= 0.5]; interference
    [>= 0.6]; activation [>= 0.9]; temporal depth [<= 0.2] with wisdom
    [>= 0.5]. *)
Theorem X5_generateWarnings_conditions
    (d : ExtendedDimensions) (coherence : Q) :
  let warnings := generateWarnings d coherence in
  warnings = Spec.firedTags (warningRules d coherence) /\
  List.NoDup warnings /\
  (In "Low overall coherence - substrate may be unstable" warnings
   <-> coherence < 1) /\
  (In "High activation with low consistency - potential instability" warnings
   <-> psi d <= 0.3 /\ 0.7 <= q d) /\
  (In "Isolated despite maturity - integration issues" warnings
   <-> f d <= 0.3 /\ 0.5 <= rho d) /\
  (In "High observer interference - perception may be distorted" warnings
   <-> 0.6 <= lambda d) /\
  (In "Extreme activation detected - biological optimization applied" warnings
   <-> 0.9 <= q d) /\
  (In "Shallow temporal depth despite accumulated wisdom - anomaly" warnings
   <-> tau d <= 0.2 /\ 0.5 <= rho d).
Proof.
  intros warnings. subst warnings.
  split; [apply generateWarnings_table |].
  split.
  - rewrite generateWarnings_table. apply firedTags_NoDup.
    unfold warningRules. simpl List.map.
    repeat (constructor; [simpl; intuition congruence |]). constructor.
  - apply generateWarnings_conditions.
Qed.

Section Report.

Variables (d : RawDimensions) (lens : LensCalibration).

Let report := reportFor d lens.

Lemma report_pattern (tag : string) :
  In tag (patterns report)
  <-> In (true, tag) (Spec.patternRules (dimensions report)).
Proof.
  subst report. simpl patterns. rewrite detectPatterns_table.
  apply firedTags_In.
Qed.

Lemma report_warning (w : string) :
  In w (warnings report)
  <-> In (true, w) (warningRules (dimensions report) (coherence report)).
Proof.
  subst report. simpl warnings. rewrite generateWarnings_table.
  apply firedTags_In.
Qed.

(** The two derived dimensions in terms of the raw ones. *)
Lemma report_tau_at_least (t : Q) :
  t <= 1 -> t <= rho d * 0.6 + psi d * 0.4 -> t <= tau (dimensions report).
Proof. intros. apply min_max_at_least; lra. Qed.

Lemma report_tau_at_most (t : Q) :
  0 <= t -> rho d * 0.6 + psi d * 0.4 <= t -> tau (dimensions report) <= t.
Proof. intros. apply min_max_at_most; lra. Qed.

Lemma report_lambda_at_most (t : Q) :
  0 <= t -> (1.0 - psi d) * q d * 0.5 <= t -> lambda (dimensions report) <= t.
Proof. intros. apply min_max_at_most; lra. Qed.

Lemma report_lambda_at_least (t : Q) :
  t <= 1 -> t <= (1.0 - psi d) * q d * 0.5 -> t <= lambda (dimensions report).
Proof. intros. apply min_max_at_least; lra. Qed.

(** A positive lower bound on the interference is one on its raw value. *)
Lemma report_lambda_raw (t : Q) :
  0 < t -> t <= lambda (dimensions report) -> t <= (1.0 - psi d) * q d * 0.5.
Proof.
  intros Ht Hl. subst report. simpl in Hl. unfold estimateLensInterference in Hl.
  set (x := (1.0 - psi d) * q d * 0.5) in *.
  destruct (Math_max_cases 0.0 x) as [[? Hm] | [? Hm]];
    destruct (Math_min_cases 1.0 (Math_max 0.0 x)) as [[? Hn] | [? Hn]];
    rewrite Hn in Hl; rewrite ?Hm in *; lra.
Qed.

End Report.

(** X6: in every report of [perceive], on any input,
    - the pattern [chaotic-active] and the warning about high activation
      with low consistency appear together or not at all;
    - [stable-mature] comes with [deep-history];
    - [low-consistency] together with [immature] comes with [ephemeral];
    - the warning about extreme activation comes with [high-activation],
      and the warning about observer interference with
      [observer-interference]. *)
Theorem X6_report_tags_agree
    (this : RoseGlassService.t) (d : RawDimensions)
    (lensName : option string) (lens : LensCalibration) :
  getLens this lensName = Normal lens ->
  exists report,
    perceive this d lensName = Normal report /\
    (In "chaotic-active" (patterns report)
     <-> In "High activation with low consistency - potential instability"
            (warnings report)) /\
    (In "stable-mature" (patterns report) ->
     In "deep-history" (patterns report)) /\
    (In "low-consistency" (patterns report) ->
     In "immature" (patterns report) ->
     In "ephemeral" (patterns report)) /\
    (In "Extreme activation detected - biological optimization applied"
        (warnings report) ->
     In "high-activation" (patterns report)) /\
    (In "High observer interference - perception may be distorted"
        (warnings report) ->
     In "observer-interference" (patterns report)).
Proof.
  intros Hlens. exists (reportFor d lens).
  split; [apply perceive_resolved, Hlens |].
  destruct (detectPatterns_conditions (dimensions (reportFor d lens)) lens)
    as (Hpsi1 & Hpsi0 & Hrho1 & Hrho0 & Hq1 & Hq0 & Hf1 & Hf0
        & Htau1 & Htau0 & Hlambda & Hstable & Hchaotic & Hanchor).
  destruct (generateWarnings_conditions
              (dimensions (reportFor d lens)) (coherence (reportFor d lens)))
    as (Wlow & Wunstable & Wisolated & Winterference & Wextreme & Wshallow).
  change (detectPatterns (dimensions (reportFor d lens)) lens)
    with (patterns (reportFor d lens)) in *.
  change (generateWarnings (dimensions (reportFor d lens))
                           (coherence (reportFor d lens)))
    with (warnings (reportFor d lens)) in *.
  split; [rewrite Hchaotic, Wunstable; reflexivity |].
  split.
  { rewrite Hstable, Htau1. intros [Hp Hr].
    apply report_tau_at_least; simpl in *; lra. }
  split.
  { rewrite Hpsi0, Hrho0, Htau0. intros Hp Hr.
    apply report_tau_at_most; simpl in *; lra. }
  split.
  { rewrite Wextreme, Hq1. intros Hq. lra. }
  rewrite Winterference, Hlambda. intros Hl. lra.
Qed.

Lemma X6_report_tags_agree_witness :
  getLens new None = Normal codeAnalysisLens /\
  exists report,
    perceive new outOfRangeDimensions None = Normal report /\
    (In "chaotic-active" (patterns report)
     <-> In "High activation with low consistency - potential instability"
            (warnings report)).
Proof.
  assert (Hlens : getLens new None = Normal codeAnalysisLens)
    by (vm_compute; reflexivity).
  split; [exact Hlens |].
  destruct (X6_report_tags_agree new outOfRangeDimensions None
              codeAnalysisLens Hlens) as [report [Hreport [Hagree _]]].
  exists report. split; assumption.
Defined.

(** For raw dimensions in the unit interval the raw interference is at
    most one half. *)
Lemma raw_interference_at_most_half (d : RawDimensions) :
  in_unit (psi d) -> in_unit (q d) -> (1.0 - psi d) * q d * 0.5 <= 0.5.
Proof.
  unfold in_unit. intros [Hp0 Hp1] [Hq0 Hq1].
  assert (Hprod : (1 - psi d) * q d <= 1 * 1)
    by (apply Qmult_le_compat_nonneg; split; lra).
  lra.
Qed.

(** X7: when the four raw dimensions lie in [0,1], the interference of
    the report is at most [0.5]; so the warning about high observer
    interference never appears, the pattern [observer-interference]
    appears only with an activation of [1] and appears whenever the
    consistency is [0] and the activation [1], and the warning about
    shallow temporal depth never appears. *)
Theorem X7_in_range_input_limits_interference
    (this : RoseGlassService.t) (d : RawDimensions)
    (lensName : option string) (lens : LensCalibration) :
  getLens this lensName = Normal lens ->
  raw_in_unit d ->
  exists report,
    perceive this d lensName = Normal report /\
    lambda (dimensions report) <= 0.5 /\
    ~ In "High observer interference - perception may be distorted"
         (warnings report) /\
    (In "observer-interference" (patterns report) -> q d == 1) /\
    (psi d == 0 -> q d == 1 ->
     In "observer-interference" (patterns report)) /\
    ~ In "Shallow temporal depth despite accumulated wisdom - anomaly"
         (warnings report).
Proof.
  intros Hlens (Hpsi & Hrho & Hq & Hf). exists (reportFor d lens).
  split; [apply perceive_resolved, Hlens |].
  pose proof (raw_interference_at_most_half d Hpsi Hq) as Hraw.
  assert (Hhalf : lambda (dimensions (reportFor d lens)) <= 0.5)
    by (apply report_lambda_at_most; lra).
  destruct (detectPatterns_conditions (dimensions (reportFor d lens)) lens)
    as (_ & _ & _ & _ & _ & _ & _ & _ & _ & _ & Hlambda & _).
  destruct (generateWarnings_conditions
              (dimensions (reportFor d lens)) (coherence (reportFor d lens)))
    as (_ & _ & _ & Winterference & _ & Wshallow).
  change (detectPatterns (dimensions (reportFor d lens)) lens)
    with (patterns (reportFor d lens)) in *.
  change (generateWarnings (dimensions (reportFor d lens))
                           (coherence (reportFor d lens)))
    with (warnings (reportFor d lens)) in *.
  unfold in_unit in *.
  split; [exact Hhalf |].
  split; [rewrite Winterference; lra |].
  split; [| split].
  - rewrite Hlambda. intros Hl.
    apply (report_lambda_raw d lens 0.5) in Hl; [| reflexivity].
    assert (H2 : (1 - psi d) * q d <= 1 * q d)
      by (apply Qmult_le_compat_nonneg; split; lra).
    lra.
  - rewrite Hlambda. intros Hp0 Hq1. apply report_lambda_at_least; [lra |].
    rewrite Hp0, Hq1. lra.
  - rewrite Wshallow. intros [Htau Hr].
    assert (0.3 <= tau (dimensions (reportFor d lens)))
      by (apply report_tau_at_least; simpl in *; lra).
    lra.
Qed.

Lemma X7_in_range_input_limits_interference_witness :
  getLens new None = Normal codeAnalysisLens /\
  raw_in_unit halfDimensions /\
  exists report,
    perceive new halfDimensions None = Normal report /\
    lambda (dimensions report) <= 0.5.
Proof.
  assert (Hlens : getLens new None = Normal codeAnalysisLens)
    by (vm_compute; reflexivity).
  assert (Hunit : raw_in_unit halfDimensions)
    by (repeat split; discriminate).
  split; [exact Hlens |]. split; [exact Hunit |].
  destruct (X7_in_range_input_limits_interference new halfDimensions None
              codeAnalysisLens Hlens Hunit) as [report [Hreport [Hhalf _]]].
  exists report. split; assumption.
Defined.

(** X8: the confidence of a report follows the mean of the four raw
    dimensions.  On any input, [high] needs a mean of at least [0.6] and
    a mean below [0.35] gives [low]; for raw dimensions in [0,1], a mean
    of at least [0.8] gives [high] and a mean of at least [7/15] is never
    [low]. *)
Theorem X8_confidence_follows_signal_strength
    (this : RoseGlassService.t) (d : RawDimensions)
    (lensName : option string) (lens : LensCalibration) :
  getLens this lensName = Normal lens ->
  exists report,
    perceive this d lensName = Normal report /\
    (confidence report = high -> 0.6 <= signalStrength d) /\
    (signalStrength d < 0.35 -> confidence report = low) /\
    (raw_in_unit d -> 0.8 <= signalStrength d -> confidence report = high) /\
    (raw_in_unit d -> 7 # 15 <= signalStrength d -> confidence report <> low).
Proof.
  intros Hlens. exists (reportFor d lens).
  split; [apply perceive_resolved, Hlens |].
  pose proof (estimateLensInterference_unit d) as [Hl0 Hl1].
  assert (Hhalf : raw_in_unit d -> estimateLensInterference d <= 0.5).
  { intros (Hpsi & _ & Hq & _).
    pose proof (raw_interference_at_most_half d Hpsi Hq).
    apply (report_lambda_at_most d lens); lra. }
  simpl confidence. unfold assessConfidence. simpl.
  fold (signalStrength d).
  set (s := signalStrength d) in *. set (l := estimateLensInterference d) in *.
  destruct (s * (1.0 - l * 0.5) >=? 0.6) eqn:Hhigh;
    [apply ge_true in Hhigh | apply ge_false in Hhigh];
    [| destruct (s * (1.0 - l * 0.5) >=? 0.35) eqn:Hmedium;
       [apply ge_true in Hmedium | apply ge_false in Hmedium]].
  - repeat split; try congruence.
    + intros _. nra.
    + intros Hs. exfalso. nra.
  - repeat split; try congruence.
    + intros Hs. exfalso. nra.
    + intros Hunit Hs. specialize (Hhalf Hunit). exfalso. nra.
  - repeat split; try congruence.
    + intros Hunit Hs. specialize (Hhalf Hunit). exfalso. nra.
    + intros Hunit Hs. specialize (Hhalf Hunit). exfalso. nra.
Qed.

Lemma X8_confidence_follows_signal_strength_witness :
  getLens new None = Normal codeAnalysisLens /\
  exists report,
    perceive new halfDimensions None = Normal report /\
    confidence report <> low.
Proof.
  assert (Hlens : getLens new None = Normal codeAnalysisLens)
    by (vm_compute; reflexivity).
  assert (Hunit : raw_in_unit halfDimensions)
    by (repeat split; discriminate).
  assert (Hmean : 7 # 15 <= signalStrength halfDimensions)
    by (vm_compute; discriminate).
  split; [exact Hlens |].
  destruct (X8_confidence_follows_signal_strength new halfDimensions None
              codeAnalysisLens Hlens)
    as [report [Hreport (_ & _ & _ & Hnotlow)]].
  exists report. split; [exact Hreport | exact (Hnotlow Hunit Hmean)].
Defined.

(** ** The registry and the report *)

(** X9: in the service as constructed and after any registrations, a
    report carries the name it was asked under: [perceive] with a
    registered identifier returns a report whose [lens] is that
    identifier, and [perceive] without an identifier returns one whose
    [lens] is ['code-analysis']. *)
Theorem X9_report_names_the_requested_lens
    (cs : list LensCalibration) (d : RawDimensions) :
  let this := registerAll new cs in
  (forall (n : string) (calibration : LensCalibration),
     lenses this !! n = Some calibration ->
     exists report,
       perceive this d (Some n) = Normal report /\ lens report = n) /\
  (exists report,
     perceive this d None = Normal report /\ lens report = "code-analysis").
Proof.
  intros this.
  assert (Hthis : reachable this)
    by (apply registerAll_reachable; constructor).
  split.
  - intros n calibration Hn. exists (reportFor d calibration).
    split; [apply perceive_resolved, getLens_registered, Hn |].
    simpl. apply (lenses_keyed_by_name this n calibration Hthis Hn).
  - destruct (default_registered this Hthis) as [calibration Hdefault].
    exists (reportFor d calibration). split.
    + apply perceive_resolved. unfold getLens. simpl.
      rewrite (defaultLens_reachable this Hthis), Hdefault. reflexivity.
    + simpl. apply (lenses_keyed_by_name this _ calibration Hthis Hdefault).
Qed.

Lemma X9_report_names_the_requested_lens_witness :
  lenses (registerAll new [negativeKmLens; reweightedLens]) !! "reweighted"
    = Some reweightedLens /\
  exists report,
    perceive (registerAll new [negativeKmLens; reweightedLens])
             halfDimensions (Some "reweighted") = Normal report /\
    lens report = "reweighted".
Proof.
  assert (Hn : lenses (registerAll new [negativeKmLens; reweightedLens])
                 !! "reweighted" = Some reweightedLens)
    by (vm_compute; reflexivity).
  split; [exact Hn |].
  destruct (X9_report_names_the_requested_lens
              [negativeKmLens; reweightedLens] halfDimensions)
    as [Hnamed _].
  exact (Hnamed "reweighted" reweightedLens Hn).
Defined.

(** X10: registrations under different names can be made in either
    order, and of two registrations under one name only the later one
    counts: every later [getLens] and [perceive] answers the same. *)
Theorem X10_registration_order
    (this : RoseGlassService.t) (c1 c2 : LensCalibration)
    (lensName : option string) (d : RawDimensions) :
  (name c1 <> name c2 ->
   getLens (registerLens (registerLens this c1) c2) lensName
     = getLens (registerLens (registerLens this c2) c1) lensName /\
   perceive (registerLens (registerLens this c1) c2) d lensName
     = perceive (registerLens (registerLens this c2) c1) d lensName) /\
  (name c1 = name c2 ->
   getLens (registerLens (registerLens this c1) c2) lensName
     = getLens (registerLens this c2) lensName /\
   perceive (registerLens (registerLens this c1) c2) d lensName
     = perceive (registerLens this c2) d lensName).
Proof.
  split.
  - intros Hne.
    assert (Hsame : registerLens (registerLens this c1) c2
                    = registerLens (registerLens this c2) c1).
    { unfold registerLens. simpl. f_equal.
      apply insert_insert_ne. congruence. }
    rewrite Hsame. split; reflexivity.
  - intros Heq.
    assert (Hsame : registerLens (registerLens this c1) c2
                    = registerLens this c2).
    { unfold registerLens. simpl. f_equal. rewrite Heq.
      apply insert_insert_eq. }
    rewrite Hsame. split; reflexivity.
Qed.

Lemma X10_registration_order_witness :
  getLens (registerLens (registerLens new negativeKmLens) reweightedLens)
          (Some "negative-km")
  = getLens (registerLens (registerLens new reweightedLens) negativeKmLens)
            (Some "negative-km").
Proof.
  destruct (X10_registration_order new negativeKmLens reweightedLens
              (Some "negative-km") halfDimensions) as [Hswap _].
  apply Hswap. discriminate.
Defined.

(** X11: nothing in a report depends on the calibration's weights,
    description or expected patterns: two calibrations with the same name
    and the same kinetic constants, resolved in any two services, give
    the same report on every input. *)
Theorem X11_report_ignores_weights_and_labels
    (this1 this2 : RoseGlassService.t) (lensName1 lensName2 : option string)
    (lens1 lens2 : LensCalibration) (d : RawDimensions) :
  getLens this1 lensName1 = Normal lens1 ->
  getLens this2 lensName2 = Normal lens2 ->
  name lens1 = name lens2 ->
  biologicalParams lens1 = biologicalParams lens2 ->
  perceive this1 d lensName1 = perceive this2 d lensName2.
Proof.
  intros Hlens1 Hlens2 Hname Hparams.
  rewrite (perceive_resolved this1 d lensName1 lens1 Hlens1).
  rewrite (perceive_resolved this2 d lensName2 lens2 Hlens2).
  destruct lens1, lens2. simpl in Hname, Hparams. subst. reflexivity.
Qed.

(** [codeAnalysisLens] by name and constants, with other contents. *)
Lemma X11_report_ignores_weights_and_labels_witness :
  weights codeAnalysisLens
    <> weights {| name := "code-analysis"; description := "";
                  weights := weights reweightedLens;
                  biologicalParams := {| Km := 0.2; Ki := 0.8 |};
                  expectedPatterns := None |} /\
  perceive new halfDimensions None
  = perceive (registerLens new
                {| name := "code-analysis"; description := "";
                   weights := weights reweightedLens;
                   biologicalParams := {| Km := 0.2; Ki := 0.8 |};
                   expectedPatterns := None |})
             halfDimensions (Some "code-analysis").
Proof.
  split; [discriminate |].
  apply (X11_report_ignores_weights_and_labels new _ None _
           codeAnalysisLens
           {| name := "code-analysis"; description := "";
              weights := weights reweightedLens;
              biologicalParams := {| Km := 0.2; Ki := 0.8 |};
              expectedPatterns := None |});
    vm_compute; reflexivity.
Defined.

(** ** The hunt tool: from repository metadata to a report *)

Lemma min_one_unit (x : Q) : 0 <= x -> in_unit (Math_min 1 x).
Proof.
  intros Hx. unfold in_unit.
  destruct (Math_min_cases 1 x) as [[? Hn] | [? Hn]]; rewrite Hn; lra.
Qed.

Lemma max_zero_unit (x : Q) : x <= 1 -> in_unit (Math_max 0 x).
Proof.
  intros Hx. unfold in_unit.
  destruct (Math_max_cases 0 x) as [[? Hm] | [? Hm]]; rewrite Hm; lra.
Qed.

Lemma max_zero_nonneg (x : Q) : 0 <= Math_max 0 x.
Proof.
  destruct (Math_max_cases 0 x) as [[? Hm] | [? Hm]]; rewrite Hm; lra.
Qed.

Lemma quotient_nonneg (x y : Q) : 0 <= x -> 0 < y -> 0 <= x / y.
Proof. intros Hx Hy. apply Qle_shift_div_l; lra. Qed.

Section ExtractDimensions.

Variables (getTime : string -> Q) (now : Q) (repo : GitHubRepo.t).

Let stars := GitHubRepo.stargazers_count repo.
Let forks := GitHubRepo.forks_count repo.
Let issues := GitHubRepo.open_issues_count repo.
Let days := daysSinceUpdate getTime now repo.
Let extracted := extractDimensions getTime now repo.

Lemma days_nonneg : plausible getTime now repo -> 0 <= days.
Proof.
  intros (_ & _ & _ & _ & Hupdated). subst days. unfold daysSinceUpdate.
  apply quotient_nonneg; lra.
Qed.

Lemma extracted_psi : plausible getTime now repo -> in_unit (psi extracted).
Proof.
  intros Hp. pose proof (days_nonneg Hp) as Hdays.
  destruct Hp as (Hstars & _ & Hissues & _ & _).
  subst extracted days stars issues. unfold extractDimensions, daysSinceUpdate in *.
  simpl.
  match goal with
  | |- in_unit (Math_max 0 ?u * 0.6 + Math_max 0 (1 - Math_min 1 ?r) * 0.4) =>
      assert (Hu : in_unit (Math_max 0 u));
      [ apply max_zero_unit;
        assert (0 <= (now - getTime (GitHubRepo.updated_at repo))
                     / (1000 * 60 * 60 * 24) / 365)
          by (apply quotient_nonneg; lra);
        lra
      | assert (Hr : in_unit (Math_min 1 r))
          by (apply min_one_unit, quotient_nonneg; lra);
        assert (Hh : in_unit (Math_max 0 (1 - Math_min 1 r)))
          by (apply max_zero_unit; unfold in_unit in Hr; lra) ]
  end.
  unfold in_unit in *. lra.
Qed.

Lemma extracted_rho : plausible getTime now repo -> in_unit (rho extracted).
Proof.
  intros (Hstars & _ & _ & Hcreated & _).
  subst extracted stars. unfold extractDimensions. simpl.
  match goal with
  | |- in_unit (Math_min 1 ?m * 0.7 + Math_min 1 ?a * 0.3) =>
      assert (Hm : in_unit (Math_min 1 m))
        by (apply min_one_unit; repeat apply quotient_nonneg; lra);
      assert (Ha : in_unit (Math_min 1 a))
        by (apply min_one_unit, quotient_nonneg; lra)
  end.
  unfold in_unit in *. lra.
Qed.

Lemma extracted_q : plausible getTime now repo -> 0 < q extracted <= 1.
Proof.
  intros Hp. pose proof (days_nonneg Hp) as Hdays.
  destruct Hp as (Hstars & Hforks & _ & _ & _).
  subst extracted days stars forks. unfold extractDimensions, daysSinceUpdate in *.
  simpl.
  match goal with
  | |- 0 < Math_min 1 (1 / ?e) * 0.5 + Math_min 1 ?c * 0.5 <= 1 =>
      assert (He : 0 < 1 / e) by (apply Qlt_shift_div_l; lra);
      assert (Hr : 0 < Math_min 1 (1 / e) <= 1)
        by (destruct (Math_min_cases 1 (1 / e)) as [[? Hn] | [? Hn]];
            rewrite Hn; lra);
      assert (Hc : in_unit (Math_min 1 c))
        by (apply min_one_unit, quotient_nonneg; lra)
  end.
  unfold in_unit in *. lra.
Qed.

Lemma extracted_f : plausible getTime now repo -> in_unit (f extracted).
Proof.
  intros (Hstars & Hforks & _ & _ & _).
  subst extracted stars forks. unfold extractDimensions. simpl.
  apply min_one_unit.
  match goal with
  | |- 0 <= Math_min 1 ?h * 0.3 + ?l + ?w + Math_min 1 ?p * 0.2 =>
      assert (Hh : in_unit (Math_min 1 h));
      [ apply min_one_unit;
        assert (0 <= GitHubRepo.forks_count repo
                     / (GitHubRepo.stargazers_count repo + 1))
          by (apply quotient_nonneg; lra);
        lra
      | assert (Hpop : in_unit (Math_min 1 p))
          by (apply min_one_unit, quotient_nonneg; lra);
        assert (Hl : 0 <= l) by (destruct (truthy _); lra);
        assert (Hw : 0 <= w) by (destruct (GitHubRepo.has_wiki repo); lra) ]
  end.
  unfold in_unit in *. lra.
Qed.

End ExtractDimensions.

(** X12: for repository data with non-negative counts and dates not in
    the future, the four dimensions [extractDimensions] computes lie in
    [0,1], and the activation is strictly positive. *)
Theorem X12_extractDimensions_in_unit_interval
    (getTime : string -> Q) (now : Q) (repo : GitHubRepo.t) :
  plausible getTime now repo ->
  raw_in_unit (extractDimensions getTime now repo) /\
  0 < q (extractDimensions getTime now repo).
Proof.
  intros Hp.
  pose proof (extracted_q getTime now repo Hp) as [Hq0 Hq1].
  split; [| exact Hq0].
  split; [apply extracted_psi, Hp |].
  split; [apply extracted_rho, Hp |].
  split; [unfold in_unit; lra | apply extracted_f, Hp].
Qed.

Lemma X12_extractDimensions_in_unit_interval_witness :
  plausible sampleTime sampleNow sampleRepo /\
  raw_in_unit (extractDimensions sampleTime sampleNow sampleRepo) /\
  0 < q (extractDimensions sampleTime sampleNow sampleRepo).
Proof.
  assert (Hp : plausible sampleTime sampleNow sampleRepo)
    by (repeat split; vm_compute; discriminate).
  split; [exact Hp |].
  exact (X12_extractDimensions_in_unit_interval
           sampleTime sampleNow sampleRepo Hp).
Defined.

(** X13: [extractDimensions] has no upper clamp on consistency.  When
    [updated_at] is later than the current time and the repository has no
    open issues, the consistency it computes exceeds [1], and [perceive]
    passes it on into the report. *)
Theorem X13_future_update_exceeds_unit_interval
    (roseGlass : RoseGlassService.t) (getTime : string -> Q) (now : Q)
    (repo : GitHubRepo.t) (lensName : option string)
    (calibration : LensCalibration) :
  now < getTime (GitHubRepo.updated_at repo) ->
  GitHubRepo.open_issues_count repo == 0 ->
  0 <= GitHubRepo.stargazers_count repo ->
  getLens roseGlass lensName = Normal calibration ->
  1 < psi (extractDimensions getTime now repo) /\
  exists report,
    perceiveRepository roseGlass getTime now repo lensName = Normal report /\
    1 < psi (dimensions report).
Proof.
  intros Hfuture Hissues Hstars Hlens.
  assert (Hpsi : 1 < psi (extractDimensions getTime now repo)).
  { unfold extractDimensions. simpl.
    set (days := (now - getTime (GitHubRepo.updated_at repo))
                 / (1000 * 60 * 60 * 24)).
    assert (Hdays : days < 0).
    { subst days. apply Qlt_shift_div_r; lra. }
    assert (Hover : 0 < - days / 365) by (apply Qlt_shift_div_l; lra).
    assert (Hsplit : 1 - days / 365 == 1 + - days / 365) by (field; lra).
    assert (Hratio : GitHubRepo.open_issues_count repo
                     / (GitHubRepo.stargazers_count repo + 1) == 0)
      by (rewrite Hissues; field; lra).
    rewrite Hratio.
    destruct (Math_max_cases 0 (1 - days / 365)) as [[? Hu] | [? Hu]];
      destruct (Math_min_cases 1 0) as [[? Hn] | [? Hn]];
      rewrite Hu, Hn;
      destruct (Math_max_cases 0 (1 - 0)) as [[? Hh] | [? Hh]];
      rewrite Hh; lra. }
  split; [exact Hpsi |].
  exists (reportFor (extractDimensions getTime now repo) calibration).
  split; [apply perceive_resolved, Hlens | exact Hpsi].
Qed.

Lemma X13_future_update_exceeds_unit_interval_witness :
  earlyNow < sampleTime (GitHubRepo.updated_at quietRepo) /\
  1 < psi (extractDimensions sampleTime earlyNow quietRepo) /\
  exists report,
    perceiveRepository new sampleTime earlyNow quietRepo None
      = Normal report /\
    1 < psi (dimensions report).
Proof.
  assert (Hfuture : earlyNow < sampleTime (GitHubRepo.updated_at quietRepo))
    by reflexivity.
  split; [exact Hfuture |].
  apply (X13_future_update_exceeds_unit_interval
           new sampleTime earlyNow quietRepo None codeAnalysisLens Hfuture).
  - reflexivity.
  - vm_compute. discriminate.
  - vm_compute. reflexivity.
Defined.

(** A report on raw dimensions in [0,1], under positive constants. *)
Lemma in_range_report (d : RawDimensions) (calibration : LensCalibration) :
  raw_in_unit d ->
  0 < Km (biologicalParams calibration) ->
  0 < Ki (biologicalParams calibration) ->
  let report := reportFor d calibration in
  raw_in_unit (dimensions report) /\
  in_unit (tau (dimensions report)) /\
  0 <= lambda (dimensions report) <= 0.5 /\
  0 <= qOptimized report <= 1 /\
  0 <= coherence report <= 4 /\
  ~ In "High observer interference - perception may be distorted"
       (warnings report).
Proof.
  intros Hunit HKm HKi report.
  pose proof Hunit as (Hpsi & Hrho & Hqunit & Hf).
  pose proof (estimateTemporalDepth_unit d) as Htau.
  pose proof (estimateLensInterference_unit d) as Hlambda.
  pose proof (raw_interference_at_most_half d Hpsi Hqunit) as Hraw.
  assert (Hhalf : lambda (dimensions report) <= 0.5)
    by (apply report_lambda_at_most; lra).
  split; [exact Hunit |].
  split; [exact Htau |].
  split; [split; [apply Hlambda | exact Hhalf] |].
  split; [apply optimizeQ_unit_closed; assumption |].
  split; [apply (calculateCoherence_bounds (dimensions report) calibration) |].
  destruct (generateWarnings_conditions
              (dimensions report) (coherence report))
    as (_ & _ & _ & Winterference & _).
  intros Hin. apply (proj1 Winterference) in Hin. lra.
Qed.

(** X14: the hunt on plausible repository data.  With the lens resolved
    and its constants positive, [perceive] applied to the extracted
    dimensions returns a report whose six dimensions lie in [0,1], with
    interference at most [0.5], an optimized activation in [0,1], a
    coherence in [0,4], and without the warning about observer
    interference. *)
Theorem X14_hunt_report_is_in_range
    (roseGlass : RoseGlassService.t) (getTime : string -> Q) (now : Q)
    (repo : GitHubRepo.t) (lensName : option string)
    (calibration : LensCalibration) :
  plausible getTime now repo ->
  getLens roseGlass lensName = Normal calibration ->
  0 < Km (biologicalParams calibration) ->
  0 < Ki (biologicalParams calibration) ->
  exists report,
    perceiveRepository roseGlass getTime now repo lensName = Normal report /\
    raw_in_unit (dimensions report) /\
    in_unit (tau (dimensions report)) /\
    0 <= lambda (dimensions report) <= 0.5 /\
    0 <= qOptimized report <= 1 /\
    0 <= coherence report <= 4 /\
    ~ In "High observer interference - perception may be distorted"
         (warnings report).
Proof.
  intros Hp Hlens HKm HKi.
  pose proof (extracted_psi getTime now repo Hp) as Hpsi.
  pose proof (extracted_rho getTime now repo Hp) as Hrho.
  pose proof (extracted_q getTime now repo Hp) as Hq.
  pose proof (extracted_f getTime now repo Hp) as Hf.
  assert (Hunit : raw_in_unit (extractDimensions getTime now repo)).
  { split; [exact Hpsi |]. split; [exact Hrho |].
    split; [| exact Hf]. unfold in_unit. split; [apply Qlt_le_weak |]; apply Hq. }
  exists (reportFor (extractDimensions getTime now repo) calibration).
  split; [apply perceive_resolved, Hlens |].
  exact (in_range_report _ calibration Hunit HKm HKi).
Qed.

Lemma X14_hunt_report_is_in_range_witness :
  plausible sampleTime sampleNow sampleRepo /\
  exists report,
    perceiveRepository new sampleTime sampleNow sampleRepo None
      = Normal report /\
    raw_in_unit (dimensions report) /\
    0 <= coherence report <= 4.
Proof.
  assert (Hp : plausible sampleTime sampleNow sampleRepo)
    by (repeat split; vm_compute; discriminate).
  assert (Hlens : getLens new None = Normal codeAnalysisLens)
    by (vm_compute; reflexivity).
  split; [exact Hp |].
  destruct (X14_hunt_report_is_in_range new sampleTime sampleNow sampleRepo
              None codeAnalysisLens Hp Hlens)
    as [report (Hreport & Hraw & _ & _ & _ & Hcoherence & _)];
    try reflexivity.
  exists report. repeat split; try assumption; apply Hraw || apply Hcoherence.
Defined.

(** ** The hunt tool: repository identifiers *)

Section Strings.

Implicit Types (s t owner name : string) (c : ascii).

#[local] Arguments String.append !s1 s2 : simpl nomatch.

Lemma append_assoc s t u : (s +:+ t) +:+ u = s +:+ (t +:+ u).
Proof. induction s as [| c s IH]; simpl; [reflexivity | rewrite IH; reflexivity]. Qed.

Lemma countSlashes_append s t :
  countSlashes (s +:+ t) = (countSlashes s + countSlashes t)%nat.
Proof. induction s as [| c s IH]; simpl; [reflexivity | rewrite IH; lia]. Qed.

Lemma slashFree_count s : slashFree s = true -> countSlashes s = 0%nat.
Proof.
  induction s as [| c s IH]; simpl; [reflexivity |].
  destruct (Ascii.eqb c slash); simpl; [discriminate | exact IH].
Qed.

(** A string that starts with [p] is [p] followed by something. *)
Lemma prefix_append p s : String.prefix p s = true -> exists t, s = p +:+ t.
Proof.
  revert s. induction p as [| a p IH]; intros s; simpl.
  - intros _. exists s. reflexivity.
  - destruct s as [| b s]; simpl; [discriminate |].
    destruct (ascii_dec a b) as [-> | _]; [| discriminate].
    intros Hp. destruct (IH s Hp) as [t ->]. exists t. reflexivity.
Qed.

(** [split] cuts at every [/] and nowhere else. *)
Lemma split_nonempty s : split s <> [].
Proof.
  induction s as [| c s IH]; simpl; [discriminate |].
  destruct (Ascii.eqb c slash); [discriminate |].
  destruct (split s); [contradiction | discriminate].
Qed.

Lemma split_length s : length (split s) = S (countSlashes s).
Proof.
  induction s as [| c s IH]; simpl; [reflexivity |].
  destruct (Ascii.eqb c slash); simpl; [rewrite IH; reflexivity |].
  pose proof (split_nonempty s).
  destruct (split s); [contradiction | exact IH].
Qed.

Lemma split_slashFree s : slashFree s = true -> split s = [s].
Proof.
  induction s as [| c s IH]; simpl; [reflexivity |].
  destruct (Ascii.eqb c slash); simpl; [discriminate |].
  intros Hs. rewrite (IH Hs). reflexivity.
Qed.

Lemma split_append s t :
  slashFree s = true -> split (s +:+ String slash t) = s :: split t.
Proof.
  induction s as [| c s IH]; simpl.
  - intros _. reflexivity.
  - destruct (Ascii.eqb c slash); simpl; [discriminate |].
    intros Hs. rewrite (IH Hs). reflexivity.
Qed.

(** Every part that [split] returns is free of [/], and the parts joined
    by [/] give the string back; stated for two parts. *)
Lemma split_two s owner name :
  split s = [owner; name] ->
  s = owner +:+ "/" +:+ name /\
  slashFree owner = true /\ slashFree name = true.
Proof.
  revert owner. induction s as [| c s IH]; intros owner; simpl.
  - discriminate.
  - destruct (Ascii.eqb_spec c slash) as [-> | Hc].
    + intros [= <- Hrest].
      assert (Hcount : countSlashes s = 0%nat).
      { pose proof (split_length s) as Hl. rewrite Hrest in Hl.
        simpl in Hl. lia. }
      assert (Hfree : slashFree s = true).
      { clear -Hcount. induction s as [| c s IH]; simpl in *; [reflexivity |].
        destruct (Ascii.eqb c slash); simpl in *; [lia | auto]. }
      rewrite (split_slashFree s Hfree) in Hrest.
      injection Hrest as <-. auto.
    + destruct (split s) as [| part parts] eqn:Hsplit; [discriminate |].
      intros [= <- ->].
      destruct (IH part eq_refl) as (-> & Hpart & Hname).
      split; [reflexivity |]. split; [| exact Hname].
      simpl. rewrite Hpart.
      destruct (Ascii.eqb_spec c slash); [contradiction | reflexivity].
Qed.

(** [segment] takes exactly the part before the next [/]. *)
Lemma segment_stops s tail :
  slashFree s = true -> stopsSegment tail ->
  segment (s +:+ tail) = (s, tail).
Proof.
  intros Hs Htail. induction s as [| c s IH]; simpl.
  - destruct Htail as [-> | [rest ->]]; reflexivity.
  - simpl in Hs. destruct (Ascii.eqb c slash); simpl in Hs; [discriminate |].
    rewrite (IH Hs). reflexivity.
Qed.

Lemma segment_spec s taken tail :
  segment s = (taken, tail) ->
  s = taken +:+ tail /\ slashFree taken = true /\ stopsSegment tail.
Proof.
  revert taken. induction s as [| c s IH]; intros taken; simpl.
  - intros [= <- <-]. repeat split. left. reflexivity.
  - destruct (Ascii.eqb_spec c slash) as [-> | Hc].
    + intros [= <- <-]. repeat split. right. eexists. reflexivity.
    + destruct (segment s) as [taken' tail'] eqn:Hseg.
      intros [= <- <-].
      destruct (IH taken' eq_refl) as (-> & Hfree & Hstop).
      repeat split; [| exact Hstop].
      simpl. rewrite Hfree.
      destruct (Ascii.eqb_spec c slash); [contradiction | reflexivity].
Qed.

Lemma afterPrefix_append p s : afterPrefix p (p +:+ s) = Some s.
Proof.
  induction p as [| a p IH]; simpl; [reflexivity |].
  rewrite Ascii.eqb_refl. exact IH.
Qed.

Lemma afterPrefix_spec p s t : afterPrefix p s = Some t -> s = p +:+ t.
Proof.
  revert s. induction p as [| a p IH]; intros s; simpl.
  - intros [= ->]. reflexivity.
  - destruct s as [| b s]; [discriminate |].
    destruct (Ascii.eqb_spec a b) as [-> | _]; [| discriminate].
    intros Hp. rewrite (IH s Hp). reflexivity.
Qed.

End Strings.

Section Identifiers.

Implicit Types (repo s owner name tail : string).

#[local] Arguments String.append !s1 s2 : simpl nomatch.

(** A string with at most one [/] starts with neither [http://] nor
    [https://]. *)
Lemma one_slash_not_url repo : (countSlashes repo <= 1)%nat -> isUrl repo = false.
Proof.
  intros Hcount. unfold isUrl.
  destruct (String.prefix "http://" repo) eqn:Hhttp.
  { apply prefix_append in Hhttp as [t ->].
    rewrite countSlashes_append in Hcount. simpl in Hcount. lia. }
  destruct (String.prefix "https://" repo) eqn:Hhttps.
  { apply prefix_append in Hhttps as [t ->].
    rewrite countSlashes_append in Hcount. simpl in Hcount. lia. }
  reflexivity.
Qed.

Lemma matchHere_mention owner name tail :
  owner <> EmptyString -> name <> EmptyString ->
  slashFree owner = true -> slashFree name = true -> stopsSegment tail ->
  matchHere ("github.com/" +:+ owner +:+ "/" +:+ name +:+ tail)
  = Some (owner, name).
Proof.
  intros Howner Hname Hfree1 Hfree2 Htail. unfold matchHere.
  rewrite afterPrefix_append.
  rewrite (segment_stops owner ("/" +:+ name +:+ tail) Hfree1)
    by (right; eexists; reflexivity).
  destruct owner as [| c owner]; [contradiction |].
  simpl. rewrite (segment_stops name tail Hfree2 Htail).
  destruct name; [contradiction | reflexivity].
Qed.

Lemma matchHere_spec s owner name :
  matchHere s = Some (owner, name) ->
  owner <> EmptyString /\ name <> EmptyString /\
  slashFree owner = true /\ slashFree name = true /\
  exists after,
    stopsSegment after /\
    s = "github.com/" +:+ owner +:+ "/" +:+ name +:+ after.
Proof.
  unfold matchHere.
  destruct (afterPrefix "github.com/" s) as [s1 |] eqn:Hprefix;
    [| discriminate].
  apply afterPrefix_spec in Hprefix. subst s.
  destruct (segment s1) as [group1 rest1] eqn:Hseg1.
  apply segment_spec in Hseg1 as (-> & Hfree1 & Hstop1).
  destruct group1 as [| c1 group1]; [discriminate |].
  destruct rest1 as [| c rest1]; [discriminate |].
  destruct Hstop1 as [Hempty | [rest Hrest]]; [discriminate |].
  injection Hrest as -> ->.
  destruct (segment rest) as [group2 rest2] eqn:Hseg2.
  apply segment_spec in Hseg2 as (-> & Hfree2 & Hstop2).
  destruct group2 as [| c2 group2]; [discriminate |].
  intros [= <- <-].
  repeat split; try discriminate; try assumption.
  exists rest2. split; [exact Hstop2 | reflexivity].
Qed.

(** One step of the search, at a non-empty string. *)
Lemma matchGitHub_step c s :
  matchGitHub (String c s)
  = match matchHere (String c s) with
    | Some groups => Some groups
    | None => matchGitHub s
    end.
Proof. reflexivity. Qed.

Lemma matchHere_empty : matchHere EmptyString = None.
Proof. reflexivity. Qed.

Lemma matchGitHub_here s groups :
  matchHere s = Some groups -> matchGitHub s = Some groups.
Proof.
  intros H. destruct s as [| c s].
  - rewrite matchHere_empty in H. discriminate.
  - rewrite matchGitHub_step, H. reflexivity.
Qed.

Lemma matchGitHub_next c s :
  matchHere (String c s) = None -> matchGitHub (String c s) = matchGitHub s.
Proof. intros H. rewrite matchGitHub_step, H. reflexivity. Qed.

(** The search finds only what is there ... *)
Lemma matchGitHub_sound repo owner name :
  matchGitHub repo = Some (owner, name) -> mentionsRepository repo owner name.
Proof.
  induction repo as [| c repo IH].
  - discriminate.
  - rewrite matchGitHub_step.
    destruct (matchHere (String c repo)) as [groups |] eqn:Hhere.
    + intros [= ->].
      destruct (matchHere_spec _ _ _ Hhere)
        as (H1 & H2 & H3 & H4 & after & Hstop & Heq).
      repeat split; try assumption.
      exists EmptyString, after. split; [exact Hstop | exact Heq].
    + intros Hrest.
      destruct (IH Hrest) as (H1 & H2 & H3 & H4 & before & after & Hstop & ->).
      repeat split; try assumption.
      exists (String c before), after. split; [exact Hstop | reflexivity].
Qed.

(** ... and finds something whenever something is there. *)
Lemma matchGitHub_complete repo owner name :
  mentionsRepository repo owner name ->
  exists groups, matchGitHub repo = Some groups.
Proof.
  intros (H1 & H2 & H3 & H4 & before & after & Hstop & ->).
  induction before as [| c before IH].
  - exists (owner, name). apply matchGitHub_here.
    apply (matchHere_mention owner name after); assumption.
  - destruct (matchHere (String c before +:+ "github.com/" +:+ owner
                         +:+ "/" +:+ name +:+ after))
      as [groups |] eqn:Hhere.
    + exists groups. apply matchGitHub_here, Hhere.
    + destruct IH as [groups Hrest]. exists groups.
      change (String c before +:+ "github.com/" +:+ owner
              +:+ "/" +:+ name +:+ after)
        with (String c (before +:+ "github.com/" +:+ owner
                        +:+ "/" +:+ name +:+ after)) in *.
      rewrite (matchGitHub_next _ _ Hhere). exact Hrest.
Qed.

Lemma parse_url repo :
  isUrl repo = true ->
  parseRepoIdentifier repo
  = match matchGitHub repo with
    | None => Raised InvalidParams ("Invalid GitHub URL: " +:+ repo)
    | Some (group1, group2) =>
        Returned {| RepoIdentifier.owner := group1;
                    RepoIdentifier.name := group2 |}
    end.
Proof.
  unfold isUrl, parseRepoIdentifier. intros ->. reflexivity.
Qed.

Lemma parse_short repo :
  isUrl repo = false ->
  parseRepoIdentifier repo
  = match split repo with
    | [part0; part1] =>
        Returned {| RepoIdentifier.owner := part0;
                    RepoIdentifier.name := part1 |}
    | _ => Raised InvalidParams invalidFormat
    end.
Proof.
  unfold isUrl, parseRepoIdentifier. intros ->. reflexivity.
Qed.

End Identifiers.

(** X15: the short form round trip.  For any [owner] and [name] without
    [/], empty ones included, [parseRepoIdentifier] of [owner/name]
    returns exactly that owner and that name. *)
Theorem X15_parse_owner_slash_name (owner name : string) :
  slashFree owner = true -> slashFree name = true ->
  parseRepoIdentifier (owner +:+ "/" +:+ name)
  = Returned {| RepoIdentifier.owner := owner; RepoIdentifier.name := name |}.
Proof.
  intros Howner Hname.
  rewrite parse_short.
  - change ("/" +:+ name) with (String slash name).
    rewrite (split_append owner name Howner), (split_slashFree name Hname).
    reflexivity.
  - apply one_slash_not_url.
    rewrite !countSlashes_append, (slashFree_count owner Howner),
      (slashFree_count name Hname).
    simpl. lia.
Qed.

Lemma X15_parse_owner_slash_name_witness :
  parseRepoIdentifier ("facebook" +:+ "/" +:+ "react")
  = Returned {| RepoIdentifier.owner := "facebook";
                RepoIdentifier.name := "react" |}.
Proof.
  apply (X15_parse_owner_slash_name "facebook" "react"); reflexivity.
Defined.

(** X16: a string that starts with neither [http://] nor [https://] is
    accepted exactly when it contains one [/]: then the owner and the
    name returned are the parts before and after it; with no [/] or with
    several, the call throws [InvalidParams] with the format message. *)
Theorem X16_parse_short_form (repo : string) :
  isUrl repo = false ->
  (countSlashes repo = 1%nat ->
   exists identifier,
     parseRepoIdentifier repo = Returned identifier /\
     repo = RepoIdentifier.owner identifier +:+ "/"
            +:+ RepoIdentifier.name identifier /\
     slashFree (RepoIdentifier.owner identifier) = true /\
     slashFree (RepoIdentifier.name identifier) = true) /\
  (countSlashes repo <> 1%nat ->
   parseRepoIdentifier repo = Raised InvalidParams invalidFormat).
Proof.
  intros Hshort. rewrite (parse_short repo Hshort).
  pose proof (split_length repo) as Hlength.
  split; intros Hcount.
  - rewrite Hcount in Hlength.
    destruct (split repo) as [| part0 [| part1 [| part2 parts]]] eqn:Hsplit;
      try discriminate.
    destruct (split_two repo part0 part1 Hsplit) as (Hrepo & H0 & H1).
    eexists. split; [reflexivity |]. simpl. auto.
  - destruct (split repo) as [| part0 [| part1 [| part2 parts]]] eqn:Hsplit;
      try reflexivity.
    simpl in Hlength. exfalso. apply Hcount. lia.
Qed.

Lemma X16_parse_short_form_witness :
  isUrl "react" = false /\ countSlashes "react" <> 1%nat /\
  parseRepoIdentifier "react" = Raised InvalidParams invalidFormat.
Proof.
  assert (Hshort : isUrl "react" = false) by reflexivity.
  assert (Hcount : countSlashes "react" <> 1%nat) by discriminate.
  split; [exact Hshort |]. split; [exact Hcount |].
  exact (proj2 (X16_parse_short_form "react" Hshort) Hcount).
Defined.

(** X17: the URL round trip.  For a non-empty [owner] and [name] without
    [/], and a tail that is empty or begins with [/], the URL
    [http(s)://github.com/owner/name] followed by the tail is parsed to
    exactly that owner and that name. *)
Theorem X17_parse_github_url (scheme owner name tail : string) :
  scheme = "http://" \/ scheme = "https://" ->
  owner <> EmptyString -> name <> EmptyString ->
  slashFree owner = true -> slashFree name = true ->
  stopsSegment tail ->
  parseRepoIdentifier
    (scheme +:+ "github.com/" +:+ owner +:+ "/" +:+ name +:+ tail)
  = Returned {| RepoIdentifier.owner := owner; RepoIdentifier.name := name |}.
Proof.
  intros Hscheme Howner Hname Hfree1 Hfree2 Htail.
  pose proof (matchHere_mention owner name tail Howner Hname Hfree1 Hfree2 Htail)
    as Hhere.
  apply matchGitHub_here in Hhere.
  set (rest := "github.com/" +:+ owner +:+ "/" +:+ name +:+ tail) in *.
  destruct Hscheme as [-> | ->].
  - rewrite parse_url by reflexivity.
    change ("http://" +:+ rest)
      with (String "h" (String "t" (String "t" (String "p"
             (String ":" (String "/" (String "/" rest))))))).
    rewrite !matchGitHub_next by reflexivity.
    rewrite Hhere. reflexivity.
  - rewrite parse_url by reflexivity.
    change ("https://" +:+ rest)
      with (String "h" (String "t" (String "t" (String "p" (String "s"
             (String ":" (String "/" (String "/" rest)))))))).
    rewrite !matchGitHub_next by reflexivity.
    rewrite Hhere. reflexivity.
Qed.

Lemma X17_parse_github_url_witness :
  parseRepoIdentifier
    ("https://" +:+ "github.com/" +:+ "facebook" +:+ "/" +:+ "react"
     +:+ "/tree/main")
  = Returned {| RepoIdentifier.owner := "facebook";
                RepoIdentifier.name := "react" |}.
Proof.
  apply (X17_parse_github_url "https://" "facebook" "react" "/tree/main");
    try reflexivity; try discriminate.
  - right. reflexivity.
  - right. eexists. reflexivity.
Defined.

(** X18: a string that starts with [http://] or [https://] is accepted
    exactly when it contains [github.com/owner/name] somewhere, with a
    non-empty owner and name: what is returned is such an occurrence, and
    without any the call throws [InvalidParams] with the message
    [Invalid GitHub URL: ] followed by the input. *)
Theorem X18_parse_url_form (repo : string) :
  isUrl repo = true ->
  (forall identifier,
     parseRepoIdentifier repo = Returned identifier ->
     mentionsRepository repo (RepoIdentifier.owner identifier)
                        (RepoIdentifier.name identifier)) /\
  ((exists owner name, mentionsRepository repo owner name) ->
   exists identifier, parseRepoIdentifier repo = Returned identifier) /\
  ((~ exists owner name, mentionsRepository repo owner name) ->
   parseRepoIdentifier repo
   = Raised InvalidParams ("Invalid GitHub URL: " +:+ repo)).
Proof.
  intros Hurl. rewrite (parse_url repo Hurl).
  destruct (matchGitHub repo) as [[group1 group2] |] eqn:Hmatch.
  - split; [| split].
    + intros identifier [= <-]. simpl. apply matchGitHub_sound, Hmatch.
    + intros _. eexists. reflexivity.
    + intros Hnone. exfalso. apply Hnone. exists group1, group2.
      apply matchGitHub_sound, Hmatch.
  - split; [| split].
    + intros identifier Hreturned. discriminate.
    + intros (owner & name & Hmention).
      destruct (matchGitHub_complete repo owner name Hmention) as [groups Hfound].
      congruence.
    + intros _. reflexivity.
Qed.

Lemma X18_parse_url_form_witness :
  isUrl "https://gitlab.com/a/b" = true /\
  forall identifier,
    parseRepoIdentifier "https://gitlab.com/a/b" = Returned identifier ->
    mentionsRepository "https://gitlab.com/a/b"
      (RepoIdentifier.owner identifier) (RepoIdentifier.name identifier).
Proof.
  assert (Hurl : isUrl "https://gitlab.com/a/b" = true) by reflexivity.
  split; [exact Hurl |].
  exact (proj1 (X18_parse_url_form "https://gitlab.com/a/b" Hurl)).
Defined.

(** X19: whatever the input, an owner and a name that
    [parseRepoIdentifier] returns contain no [/], and an error it throws
    has the code [InvalidParams]. *)
Theorem X19_parse_results (repo : string) :
  match parseRepoIdentifier repo with
  | Returned identifier =>
      slashFree (RepoIdentifier.owner identifier) = true /\
      slashFree (RepoIdentifier.name identifier) = true
  | Raised code _ => code = InvalidParams
  end.
Proof.
  destruct (isUrl repo) eqn:Hurl.
  - rewrite (parse_url repo Hurl).
    destruct (matchGitHub repo) as [[group1 group2] |] eqn:Hmatch;
      [| reflexivity].
    destruct (matchGitHub_sound repo group1 group2 Hmatch)
      as (_ & _ & H1 & H2 & _).
    simpl. auto.
  - rewrite (parse_short repo Hurl).
    destruct (split repo) as [| part0 [| part1 [| part2 parts]]] eqn:Hsplit;
      try reflexivity.
    destruct (split_two repo part0 part1 Hsplit) as (_ & H0 & H1).
    simpl. auto.
Qed.

(** The binary64 computation at the inputs that shaped the statements:
    with positive constants the optimizer reaches [1] and underflows to
    [0] on a positive activation; [1.0 - psi] absorbs a tiny consistency,
    so the interference reaches [0.5] with a consistency that is not
    [0]. *)
Example binary64_optimizeQ_reaches_one :
  Binary64.optimizeQ Binary64.half Binary64.tinyKm Binary64.hugeKi
  = Binary64.one.
Proof. vm_compute. reflexivity. Qed.

Example binary64_optimizeQ_underflows :
  Binary64.optimizeQ Binary64.smallestPositive Binary64.four Binary64.one
  = Binary64.zero.
Proof. vm_compute. reflexivity. Qed.

Example binary64_interference_absorbs_consistency :
  Binary64.reportLambda Binary64.absorbedDimensions = Binary64.half.
Proof. vm_compute. reflexivity. Qed.
